(** * Runtime clients of AdGuard Home: [internal/client/client.go]

    A shallow embedding of the [client] package: the [Source] enumeration,
    the per-address [Runtime] record with its five information slots, and
    the [RuntimeIndex] registry, a Go map from addresses to pointers to
    records.  Records are reached through pointers and mutated in place, so
    the embedding keeps an explicit store of records and threads it through
    every method in a small state-and-panic monad. *)

From stdpp Require Import gmap strings list fin_maps.
From Stdlib Require Import Init.Byte.

Local Open Scope string_scope.

(** ** Go run-time conventions *)

(** A Go call either returns or panics (nil dereference, index out of
    range).  None of the functions of the package returns an [error] that
    is not [nil], so a panic is the only way any of them could fail. *)
Inductive outcome (A : Type) : Type :=
  | Returned (a : A)
  | Panicked.
Arguments Returned {A} a.
Arguments Panicked {A}.

Definition returns {A} (o : outcome A) : bool :=
  match o with Returned _ => true | Panicked => false end.

Definition fails {A} (o : outcome A) : bool := negb (returns o).

(** Computations over a mutable state [S]. *)
Definition go (S A : Type) : Type := S → outcome (A * S).

#[global] Instance go_ret {S} : MRet (go S) :=
  λ A (a : A) (s : S), Returned (a, s).

#[global] Instance go_bind {S} : MBind (go S) :=
  λ A B (k : A → go S B) (m : go S A) (s : S),
    match m s with
    | Returned (a, s') => k a s'
    | Panicked => Panicked
    end.

Definition panic {S A} : go S A := λ _, Panicked.
Definition get_state {S} : go S S := λ s, Returned (s, s).
Definition put_state {S} (s : S) : go S unit := λ _, Returned (tt, s).

(** A [[]string]: [None] is the nil slice, [Some []] the empty slice that
    is not nil.  The two are different values of the language and the
    package relies on the difference. *)
Abbreviation slice := (option (list string)).

Definition len (s : slice) : nat := from_option length 0%nat s.

(** [s[i]], which panics out of range. *)
Definition at_index {S} (s : slice) (i : nat) : go S string :=
  match s ≫= (.!! i) with
  | Some x => mret x
  | None => panic
  end.

(** A Go [error] value carries a message; [None] is the nil error. *)
Definition error : Type := string.

(** Pointers to records: [None] is nil, [Some l] the address of a cell. *)
Abbreviation loc := positive.
Abbreviation ptr := (option loc).

(** ** [net/netip.Addr]

    The standard library's address type: the zero value, which is not a
    valid address, an IPv4 address, or an IPv6 address with its zone.  The
    package only stores addresses, compares them and uses them as map
    keys. *)
Module netip.

Inductive Addr : Type :=
  | Zero
  | V4 (a : N)
  | V6 (a : N) (zone : string).

Definition IsValid (ip : Addr) : bool :=
  match ip with Zero => false | _ => true end.

#[global] Instance Addr_eq_dec : EqDecision Addr.
Proof. solve_decision. Defined.

Definition Addr_enc (ip : Addr) : unit + (N + N * string) :=
  match ip with
  | Zero => inl tt
  | V4 a => inr (inl a)
  | V6 a z => inr (inr (a, z))
  end.

Definition Addr_dec (x : unit + (N + N * string)) : Addr :=
  match x with
  | inl _ => Zero
  | inr (inl a) => V4 a
  | inr (inr (a, z)) => V6 a z
  end.

#[global] Instance Addr_countable : Countable Addr.
Proof. apply (inj_countable' Addr_enc Addr_dec). by intros []. Defined.

End netip.

(** ** [Source] *)

(** [type Source uint8]: the values are the naturals below 256. *)
Definition Source : Type := N.

Definition SourceWHOIS : Source := 1%N.
Definition SourceARP : Source := 2%N.
Definition SourceRDNS : Source := 3%N.
Definition SourceDHCP : Source := 4%N.
Definition SourceHostsFile : Source := 5%N.
Definition SourcePersistent : Source := 6%N.

Module Source.

Definition String (cs : Source) : string :=
  if decide (cs = SourceWHOIS) then "WHOIS"
  else if decide (cs = SourceARP) then "ARP"
  else if decide (cs = SourceRDNS) then "rDNS"
  else if decide (cs = SourceDHCP) then "DHCP"
  else if decide (cs = SourceHostsFile) then "etc/hosts"
  else "".

Definition MarshalText (cs : Source) : list byte * option error :=
  (Strings.String.list_byte_of_string (String cs), None).

End Source.

(** ** [Runtime] *)

Definition is_nil {A} (x : option A) : bool :=
  match x with None => true | Some _ => false end.

Module Runtime.
Section WithInfo.

(** [whois.Info], the filtered WHOIS information, is declared in another
    package; a record only stores and returns a pointer to it, so its type
    is a parameter.  [None] in the [whois] field is the nil pointer. *)
Context {whois_Info : Type}.

Record t : Type := mk {
  ip : netip.Addr;
  whois : option whois_Info;
  arp : slice;
  rdns : slice;
  dhcp : slice;
  hostsFile : slice;
}.

(** Assignments to one field. *)
Definition set_whois (x : option whois_Info) (v : t) : t :=
  mk (ip v) x (arp v) (rdns v) (dhcp v) (hostsFile v).
Definition set_arp (x : slice) (v : t) : t :=
  mk (ip v) (whois v) x (rdns v) (dhcp v) (hostsFile v).
Definition set_rdns (x : slice) (v : t) : t :=
  mk (ip v) (whois v) (arp v) x (dhcp v) (hostsFile v).
Definition set_dhcp (x : slice) (v : t) : t :=
  mk (ip v) (whois v) (arp v) (rdns v) x (hostsFile v).
Definition set_hostsFile (x : slice) (v : t) : t :=
  mk (ip v) (whois v) (arp v) (rdns v) (dhcp v) x.

(** The store: the records that have been allocated, by address. *)
Abbreviation heap := (gmap loc t).

(** Reading through [r]; a nil pointer, or one to no record, panics. *)
Definition load (r : ptr) : go heap t :=
  λ h, match r ≫= (h !!.) with
       | Some v => Returned (v, h)
       | None => Panicked
       end.

(** Writing a field through [r]. *)
Definition store (r : ptr) (f : t → t) : go heap unit :=
  λ h, match r with
       | Some l =>
           match h !! l with
           | Some v => Returned (tt, <[l := f v]> h)
           | None => Panicked
           end
       | None => Panicked
       end.

Definition Info (r : ptr) : go heap (Source * string) :=
  v ← load r;
  let '(cs, info) :=
    if negb (is_nil (hostsFile v)) then (SourceHostsFile, hostsFile v)
    else if negb (is_nil (dhcp v)) then (SourceDHCP, dhcp v)
    else if negb (is_nil (rdns v)) then (SourceRDNS, rdns v)
    else if negb (is_nil (arp v)) then (SourceARP, arp v)
    else if negb (is_nil (whois v)) then (SourceWHOIS, Some [])
    else (0%N, Some [])
  in
  if decide (len info = 0%nat) then mret (cs, "")
  else host ← at_index info 0; mret (cs, host).

Definition SetInfo (r : ptr) (cs : Source) (hosts : slice) : go heap unit :=
  hosts ← (if decide (len hosts = 1%nat) then
             h0 ← at_index hosts 0;
             mret (if decide (h0 = "") then Some [] else hosts)
           else mret hosts);
  if decide (cs = SourceARP) then store r (set_arp hosts)
  else if decide (cs = SourceRDNS) then store r (set_rdns hosts)
  else if decide (cs = SourceDHCP) then store r (set_dhcp hosts)
  else if decide (cs = SourceHostsFile) then store r (set_hostsFile hosts)
  else mret tt.

Definition WHOIS (r : ptr) : go heap (option whois_Info) :=
  v ← load r; mret (whois v).

Definition SetWHOIS (r : ptr) (info : option whois_Info) : go heap unit :=
  store r (set_whois info).

Definition Unset (r : ptr) (cs : Source) : go heap unit :=
  if decide (cs = SourceWHOIS) then store r (set_whois None)
  else if decide (cs = SourceARP) then store r (set_arp None)
  else if decide (cs = SourceRDNS) then store r (set_rdns None)
  else if decide (cs = SourceDHCP) then store r (set_dhcp None)
  else if decide (cs = SourceHostsFile) then store r (set_hostsFile None)
  else mret tt.

Definition IsEmpty (r : ptr) : go heap bool :=
  v ← load r;
  mret (is_nil (whois v) && is_nil (arp v) && is_nil (rdns v)
        && is_nil (dhcp v) && is_nil (hostsFile v)).

Definition Addr (r : ptr) : go heap netip.Addr :=
  v ← load r; mret (ip v).

End WithInfo.
Arguments t : clear implicits.
End Runtime.

Abbreviation heap whois_Info := (gmap loc (Runtime.t whois_Info)).

Section Constructor.
Context {whois_Info : Type}.

(** [&Runtime{ip: ip}]: a new cell, at an address not in use, whose other
    fields have their zero value, nil. *)
Definition NewRuntime (ip : netip.Addr) : go (heap whois_Info) ptr :=
  λ h, let l := fresh (dom h) in
       Returned (Some l, <[l := Runtime.mk ip None None None None None]> h).

End Constructor.

(** ** [RuntimeIndex] *)

Module RuntimeIndex.
Section WithInfo.
Context {whois_Info : Type}.

(** The state a registry lives in: the store of records and the registry's
    own map, [ri.index], from addresses to pointers into the store. *)
Record state : Type := State {
  records : gmap loc (Runtime.t whois_Info);
  index : gmap netip.Addr ptr;
}.

(** A method of a record, run on the store of the state. *)
Definition on_records {A} (m : go (heap whois_Info) A) : go state A :=
  λ σ, match m (records σ) with
       | Returned (a, h) => Returned (a, State h (index σ))
       | Panicked => Panicked
       end.

(** [ri.index[ip]], with the zero value nil for a missing key. *)
Definition Client (ip : netip.Addr) : go state (ptr * bool) :=
  σ ← get_state;
  match index σ !! ip with
  | Some rc => mret (rc, true)
  | None => mret (None, false)
  end.

Definition Add (rc : ptr) : go state unit :=
  ip ← on_records (Runtime.Addr rc);
  σ ← get_state;
  put_state (State (records σ) (<[ip := rc]> (index σ))).

Definition Size : go state nat :=
  σ ← get_state; mret (size (index σ)).

Definition Delete (ip : netip.Addr) : go state unit :=
  σ ← get_state;
  put_state (State (records σ) (delete ip (index σ))).

(** [for ip, rc := range ri.index { body }] over the keys in the order
    [order].  A key deleted before it is reached is not produced; the value
    produced for a key is the one the map holds when the key is reached. *)
Fixpoint range_index (body : netip.Addr → ptr → nat → go state nat)
    (order : list netip.Addr) (n : nat) : go state nat :=
  match order with
  | [] => mret n
  | ip :: order =>
      σ ← get_state;
      match index σ !! ip with
      | Some rc => n ← body ip rc n; range_index body order n
      | None => range_index body order n
      end
  end.

(** The keys of the map in the order of one enumeration. *)
Definition keys (σ : state) : list netip.Addr := (map_to_list (index σ)).*1.

(** The body of the loop of [DeleteBySrc], with the counter [n] threaded
    through.  [n] counts deleted entries of a map whose length is an [int],
    so [n++] cannot overflow and [n] is a natural number here. *)
Definition DeleteBySrc_body (src : Source) (ip : netip.Addr) (rc : ptr)
    (n : nat) : go state nat :=
  _ ← on_records (Runtime.Unset rc src);
  e ← on_records (Runtime.IsEmpty rc);
  if e : bool then _ ← Delete ip; mret (S n) else mret n.

(** The language leaves the order of [range] over a map undefined, so it is
    an argument: a list of the keys of [ri.index] on entry, in any order
    ([keys] gives one). *)
Definition DeleteBySrc (order : list netip.Addr) (src : Source) : go state nat :=
  range_index (DeleteBySrc_body src) order 0%nat.

(** [for _, rc := range ri.index { if !cb(rc) { return } }], over the keys
    in the order [order] as for [DeleteBySrc].  The callback is a closure:
    the variables it captures are the value of type [U] that it receives and
    gives back beside its answer; it may also change the state. *)
Fixpoint Range {U} (order : list netip.Addr)
    (cb : ptr → U → go state (bool * U)) (u : U) : go state U :=
  match order with
  | [] => mret u
  | ip :: order =>
      σ ← get_state;
      match index σ !! ip with
      | Some rc =>
          '(cont, u) ← cb rc u;
          if cont : bool then Range order cb u else mret u
      | None => Range order cb u
      end
  end.

End WithInfo.
Arguments state : clear implicits.
End RuntimeIndex.

Section IndexConstructor.
Context {whois_Info : Type}.

(** [&RuntimeIndex{index: map[netip.Addr]*Runtime{}}] over a store. *)
Definition NewRuntimeIndex (h : heap whois_Info) : RuntimeIndex.state whois_Info :=
  RuntimeIndex.State h ∅.

End IndexConstructor.

(** ** Vocabulary of the specification *)

(** The operations on a record that a client of the package may issue after
    construction. *)
Inductive op {whois_Info : Type} : Type :=
  | OpSetInfo (cs : Source) (hosts : slice)
  | OpSetWHOIS (info : option whois_Info)
  | OpUnset (cs : Source)
  | OpInfo
  | OpWHOIS
  | OpIsEmpty.
Arguments op : clear implicits.

Section Vocabulary.
Context {whois_Info : Type}.
Implicit Types (v : Runtime.t whois_Info) (cs : Source).

(** The slot of source [cs] holds data (is not nil).  Only the five
    discovery sources, the values 1 to 5, have a slot. *)
Definition present cs v : bool :=
  match cs with
  | 1%N => negb (is_nil (Runtime.whois v))
  | 2%N => negb (is_nil (Runtime.arp v))
  | 3%N => negb (is_nil (Runtime.rdns v))
  | 4%N => negb (is_nil (Runtime.dhcp v))
  | 5%N => negb (is_nil (Runtime.hostsFile v))
  | _ => false
  end.

(** The names in the slot of a list-valued source; nil for any other. *)
Definition names cs v : slice :=
  match cs with
  | 2%N => Runtime.arp v
  | 3%N => Runtime.rdns v
  | 4%N => Runtime.dhcp v
  | 5%N => Runtime.hostsFile v
  | _ => None
  end.

(** [v] with the slot of [cs] absent and every other field as it was. *)
Definition cleared cs v : Runtime.t whois_Info :=
  Runtime.mk (Runtime.ip v)
    (if decide (cs = SourceWHOIS) then None else Runtime.whois v)
    (if decide (cs = SourceARP) then None else Runtime.arp v)
    (if decide (cs = SourceRDNS) then None else Runtime.rdns v)
    (if decide (cs = SourceDHCP) then None else Runtime.dhcp v)
    (if decide (cs = SourceHostsFile) then None else Runtime.hostsFile v).

(** [v] with the slot of the list-valued source [cs] holding [x] and every
    other field as it was; [v] itself for any other [cs]. *)
Definition updated cs (x : slice) v : Runtime.t whois_Info :=
  Runtime.mk (Runtime.ip v) (Runtime.whois v)
    (if decide (cs = SourceARP) then x else Runtime.arp v)
    (if decide (cs = SourceRDNS) then x else Runtime.rdns v)
    (if decide (cs = SourceDHCP) then x else Runtime.dhcp v)
    (if decide (cs = SourceHostsFile) then x else Runtime.hostsFile v).

(** No slot of [v] holds data. *)
Definition empty v : bool :=
  forallb (λ cs, negb (present cs v))
    [SourceWHOIS; SourceARP; SourceRDNS; SourceDHCP; SourceHostsFile].

(** One operation of a sequence, with its result dropped. *)
Definition run_op (r : ptr) (o : op whois_Info) : go (heap whois_Info) unit :=
  match o with
  | OpSetInfo cs hosts => Runtime.SetInfo r cs hosts
  | OpSetWHOIS info => Runtime.SetWHOIS r info
  | OpUnset cs => Runtime.Unset r cs
  | OpInfo => _ ← Runtime.Info r; mret tt
  | OpWHOIS => _ ← Runtime.WHOIS r; mret tt
  | OpIsEmpty => _ ← Runtime.IsEmpty r; mret tt
  end.

(** A sequence of operations, each on the record its pointer names. *)
Fixpoint run_ops (os : list (ptr * op whois_Info)) : go (heap whois_Info) unit :=
  match os with
  | [] => mret tt
  | (r, o) :: os => _ ← run_op r o; run_ops os
  end.

(** Every pointer the registry holds leads to a record of the store: the
    registry holds no nil pointer.  [Add] only stores pointers it has read
    the address through, so registries built by the package are of this
    kind. *)
Definition live (σ : RuntimeIndex.state whois_Info) : Prop :=
  ∀ ip rc, RuntimeIndex.index σ !! ip = Some rc →
           ∃ l, rc = Some l ∧ is_Some (RuntimeIndex.records σ !! l).

End Vocabulary.

(** ** Vocabulary for the registry *)

Section RegistryVocabulary.
Context {whois_Info : Type}.
Implicit Types (σ : RuntimeIndex.state whois_Info).

(** Every entry of the registry is filed under the address of the record
    it leads to. *)
Definition keyed σ : Prop :=
  ∀ ip l v,
    RuntimeIndex.index σ !! ip = Some (Some l) →
    RuntimeIndex.records σ !! l = Some v →
    Runtime.ip v = ip.

(** The pointers the map holds for the keys of [order], in that order. *)
Definition entries (order : list netip.Addr) σ : list ptr :=
  omap (λ ip, RuntimeIndex.index σ !! ip) order.

(** One call of the package that returns: a construction, an operation on a
    record, or a method of the registry. *)
Inductive step : RuntimeIndex.state whois_Info →
                 RuntimeIndex.state whois_Info → Prop :=
  | step_NewRuntime a r σ σ' :
      RuntimeIndex.on_records (NewRuntime a) σ = Returned (r, σ') →
      step σ σ'
  | step_op r (o : op whois_Info) σ σ' :
      RuntimeIndex.on_records (run_op r o) σ = Returned (tt, σ') →
      step σ σ'
  | step_Add rc σ σ' :
      RuntimeIndex.Add rc σ = Returned (tt, σ') →
      step σ σ'
  | step_Delete ip σ σ' :
      RuntimeIndex.Delete ip σ = Returned (tt, σ') →
      step σ σ'
  | step_DeleteBySrc order src n σ σ' :
      order ≡ₚ RuntimeIndex.keys σ →
      RuntimeIndex.DeleteBySrc order src σ = Returned (n, σ') →
      step σ σ'.

(** The states a program reaches from a new registry over an empty store. *)
Definition reachable σ : Prop := rtc step (NewRuntimeIndex ∅) σ.

End RegistryVocabulary.

(** ** Sample values

    The scenarios of the documentation: the client at 192.0.2.10 with names
    from DHCP and ARP, and a registry of two clients, one known from ARP
    only and one from ARP and DHCP.  WHOIS information is a string here. *)

Definition addr1 : netip.Addr := netip.V4 3221225994.
Definition addr2 : netip.Addr := netip.V4 3221225995.

Definition fresh_client : Runtime.t string :=
  Runtime.mk addr1 None None None None None.

Definition dhcp_arp_client : Runtime.t string :=
  Runtime.mk addr1 None (Some ["other"]) None (Some ["host.example"]) None.

Definition whois_client : Runtime.t string :=
  Runtime.mk addr1 (Some "Example Org") None None None None.

Definition arp_client : Runtime.t string :=
  Runtime.mk addr1 None (Some ["a"]) None None None.

Definition arp_dhcp_client : Runtime.t string :=
  Runtime.mk addr2 None (Some ["b"]) None (Some ["c"]) None.

Definition two_clients : heap string :=
  {[ 1%positive := arp_client; 2%positive := arp_dhcp_client ]}.

Definition two_indexed : RuntimeIndex.state string :=
  RuntimeIndex.State two_clients
    {[ addr1 := Some 1%positive; addr2 := Some 2%positive ]}.

Definition same_address : heap string :=
  {[ 1%positive := arp_client; 2%positive := dhcp_arp_client ]}.

(** A registry whose first client has no data at all. *)
Definition one_empty_indexed : RuntimeIndex.state string :=
  RuntimeIndex.State
    {[ 1%positive := fresh_client; 2%positive := arp_dhcp_client ]}
    {[ addr1 := Some 1%positive; addr2 := Some 2%positive ]}.

(** The registry after one construction and one [Add]. *)
Definition one_added : RuntimeIndex.state string :=
  RuntimeIndex.State {[ 1%positive := fresh_client ]}
    {[ addr1 := Some 1%positive ]}.

(** Callbacks for [Range] that record the pointers they are given: one that
    always goes on, one that stops at once. *)
Definition record_all (rc : ptr) (seen : list ptr) :
    go (RuntimeIndex.state string) (bool * list ptr) :=
  mret (true, rc :: seen).


(** * Properties *)

(** ** [Source] *)

(** C8. [String] gives each of the five discovery sources its fixed display
    name and every other value of the type, [SourcePersistent] and the
    values outside the enumeration among them, the empty string;
    [MarshalText] returns the bytes of that name and the nil error. *)
Theorem Source_String_MarshalText :
  Source.String SourceWHOIS = "WHOIS" ∧
  Source.String SourceARP = "ARP" ∧
  Source.String SourceRDNS = "rDNS" ∧
  Source.String SourceDHCP = "DHCP" ∧
  Source.String SourceHostsFile = "etc/hosts" ∧
  Source.String SourcePersistent = "" ∧
  (∀ cs : Source,
     cs ∉ [SourceWHOIS; SourceARP; SourceRDNS; SourceDHCP; SourceHostsFile] →
     Source.String cs = "" ∧ Source.MarshalText cs = ([], None)) ∧
  (∀ cs : Source,
     ∃ text, Source.MarshalText cs = (text, None) ∧
             Strings.String.string_of_list_byte text = Source.String cs) ∧
  Source.MarshalText SourceWHOIS = ([x57; x48; x4f; x49; x53], None) ∧
  Source.MarshalText SourceARP = ([x41; x52; x50], None) ∧
  Source.MarshalText SourceRDNS = ([x72; x44; x4e; x53], None) ∧
  Source.MarshalText SourceDHCP = ([x44; x48; x43; x50], None) ∧
  Source.MarshalText SourceHostsFile =
    ([x65; x74; x63; x2f; x68; x6f; x73; x74; x73], None).
Proof.
  assert (Hother : ∀ cs : Source,
    cs ∉ [SourceWHOIS; SourceARP; SourceRDNS; SourceDHCP; SourceHostsFile] →
    Source.String cs = "").
  { intros cs Hcs. rewrite !not_elem_of_cons in Hcs.
    destruct Hcs as (? & ? & ? & ? & ? & _).
    unfold Source.String. repeat case_decide; congruence. }
  repeat split; try reflexivity.
  - by apply Hother.
  - unfold Source.MarshalText. by rewrite Hother.
  - intros cs. eexists. split; [reflexivity|].
    apply Strings.String.string_of_list_byte_of_string.
Qed.

Lemma Source_String_MarshalText_witness :
  Source.String 200%N = "" ∧ Source.MarshalText 200%N = ([], None).
Proof.
  apply Source_String_MarshalText.
  rewrite !not_elem_of_cons. repeat split; try discriminate.
  apply not_elem_of_nil.
Defined.

(** ** The monad *)

Ltac go_unfold :=
  unfold mbind, mret, go_bind, go_ret, panic, get_state, put_state in *.

Lemma bind_returned {S A B} (m : go S A) (k : A → go S B) s a s' :
  m s = Returned (a, s') → (m ≫= k) s = k a s'.
Proof. intros Hm. go_unfold. by rewrite Hm. Qed.

(** ** [Runtime] *)

Section RuntimeProperties.
Context {whois_Info : Type}.
Implicit Types (h : heap whois_Info) (v : Runtime.t whois_Info).
Implicit Types (l : loc) (r : ptr) (cs : Source) (hosts : slice).

Lemma load_live h l v :
  h !! l = Some v → Runtime.load (Some l) h = Returned (v, h).
Proof. intros Hl. unfold Runtime.load. simpl. by rewrite Hl. Qed.

Lemma store_live h l v f :
  h !! l = Some v → Runtime.store (Some l) f h = Returned (tt, <[l := f v]> h).
Proof. intros Hl. unfold Runtime.store. by rewrite Hl. Qed.

Lemma store_same h l v : h !! l = Some v → <[l := v]> h = h.
Proof. apply insert_id. Qed.

(** What [SetInfo] stores for [hosts]. *)
Lemma SetInfo_live h l v cs hosts :
  h !! l = Some v →
  Runtime.SetInfo (Some l) cs hosts h =
    Returned (tt, <[l := updated cs (if decide (hosts = Some [""]) then Some []
                                     else hosts) v]> h).
Proof.
  intros Hl. unfold Runtime.SetInfo.
  assert (Hn : ∀ k : slice → go (heap whois_Info) unit,
    ((if decide (len hosts = 1%nat) then
        h0 ← at_index hosts 0;
        mret (if decide (h0 = "") then Some [] else hosts)
      else mret hosts) ≫= k) h
    = k (if decide (hosts = Some [""]) then Some [] else hosts) h).
  { intros k. destruct hosts as [[|s [|s' hosts]]|]; try done.
    - simpl. go_unfold. simpl.
      destruct (decide (s = "")) as [->|Hs]; [done|].
      rewrite decide_False; [done|congruence].
    - rewrite !decide_False; [done|congruence|simpl; lia]. }
  rewrite Hn. clear Hn.
  set (x := if decide (hosts = Some [""]) then _ else _). clearbody x.
  unfold updated, SourceARP, SourceRDNS, SourceDHCP, SourceHostsFile.
  repeat case_decide; subst; try discriminate;
    try (by rewrite (store_live _ _ _ _ Hl)).
  go_unfold. destruct v. simpl. by rewrite (store_same _ _ _ Hl).
Qed.

Lemma Unset_live h l v cs :
  h !! l = Some v →
  Runtime.Unset (Some l) cs h = Returned (tt, <[l := cleared cs v]> h).
Proof.
  intros Hl. unfold Runtime.Unset, cleared.
  unfold SourceWHOIS, SourceARP, SourceRDNS, SourceDHCP, SourceHostsFile.
  repeat case_decide; subst; try discriminate;
    try (by rewrite (store_live _ _ _ _ Hl)).
  go_unfold. destruct v. simpl. by rewrite (store_same _ _ _ Hl).
Qed.

Lemma IsEmpty_live h l v :
  h !! l = Some v → Runtime.IsEmpty (Some l) h = Returned (empty v, h).
Proof.
  intros Hl. unfold Runtime.IsEmpty.
  rewrite (bind_returned _ _ _ _ _ (load_live _ _ _ Hl)).
  go_unfold. unfold empty. simpl.
  by destruct (Runtime.whois v), (Runtime.arp v), (Runtime.rdns v),
    (Runtime.dhcp v), (Runtime.hostsFile v).
Qed.

Lemma Info_returns h l v :
  h !! l = Some v →
  ∃ cs host, Runtime.Info (Some l) h = Returned ((cs, host), h).
Proof.
  intros Hl. unfold Runtime.Info.
  rewrite (bind_returned _ _ _ _ _ (load_live _ _ _ Hl)).
  destruct (Runtime.hostsFile v) as [[|? ?]|], (Runtime.dhcp v) as [[|? ?]|],
    (Runtime.rdns v) as [[|? ?]|], (Runtime.arp v) as [[|? ?]|],
    (Runtime.whois v) as [?|]; simpl; by eauto.
Qed.

Lemma present_inv cs v :
  present cs v = true →
  cs = SourceWHOIS ∧ Runtime.whois v ≠ None ∨
  cs = SourceARP ∧ Runtime.arp v ≠ None ∨
  cs = SourceRDNS ∧ Runtime.rdns v ≠ None ∨
  cs = SourceDHCP ∧ Runtime.dhcp v ≠ None ∨
  cs = SourceHostsFile ∧ Runtime.hostsFile v ≠ None.
Proof.
  unfold present. destruct cs as [|p]; [done|].
  do 3 (try destruct p as [p|p|]); try done.
  - destruct (Runtime.hostsFile v); [naive_solver|done].
  - destruct (Runtime.rdns v); [naive_solver|done].
  - destruct (Runtime.dhcp v); [naive_solver|done].
  - destruct (Runtime.arp v); [naive_solver|done].
  - destruct (Runtime.whois v); [naive_solver|done].
Qed.

(** C1. [Info] scans the slots in the order hosts file, DHCP, reverse DNS,
    ARP, WHOIS and returns the source of the first one that is not nil with
    the first name of its list: the empty string when that list is empty or
    the source is WHOIS, and the zero source with the empty string when all
    five slots are nil.  The record is left as it was. *)
Theorem Info_priority h l v :
  h !! l = Some v →
  ∃ cs host,
    Runtime.Info (Some l) h = Returned ((cs, host), h) ∧
    match Runtime.hostsFile v, Runtime.dhcp v, Runtime.rdns v,
          Runtime.arp v, Runtime.whois v with
    | Some hosts, _, _, _, _ =>
        cs = SourceHostsFile ∧ host = default "" (head hosts)
    | None, Some hosts, _, _, _ =>
        cs = SourceDHCP ∧ host = default "" (head hosts)
    | None, None, Some hosts, _, _ =>
        cs = SourceRDNS ∧ host = default "" (head hosts)
    | None, None, None, Some hosts, _ =>
        cs = SourceARP ∧ host = default "" (head hosts)
    | None, None, None, None, Some _ => cs = SourceWHOIS ∧ host = ""
    | None, None, None, None, None => cs = 0%N ∧ host = ""
    end ∧
    (∀ cs', present cs' v = true → present cs v = true ∧ (cs' ≤ cs)%N).
Proof.
  intros Hl. unfold Runtime.Info.
  rewrite (bind_returned _ _ _ _ _ (load_live _ _ _ Hl)).
  destruct v as [a w ar rd dh hf]; simpl.
  destruct hf as [[|? ?]|], dh as [[|? ?]|], rd as [[|? ?]|],
    ar as [[|? ?]|], w as [?|]; simpl;
    (eexists _, _; split; [reflexivity|]; split; [done|]);
    intros cs' Hp; apply present_inv in Hp; simpl in Hp;
    destruct Hp as [[-> ?]|[[-> ?]|[[-> ?]|[[-> ?]|[-> ?]]]]]; try done.
Qed.

Lemma list_sources_inv cs :
  cs ∈ [SourceARP; SourceRDNS; SourceDHCP; SourceHostsFile] →
  cs = SourceARP ∨ cs = SourceRDNS ∨ cs = SourceDHCP ∨ cs = SourceHostsFile.
Proof. rewrite !elem_of_cons, elem_of_nil. tauto. Qed.

(** C3. For a list-valued source, [SetInfo] with the one-element list of
    the empty string and [SetInfo] with the empty list leave the same store
    behind: the slot holds the empty list, which is not nil, and nothing
    else of the record has changed. *)
Theorem SetInfo_empty_string h l v cs :
  h !! l = Some v →
  cs ∈ [SourceARP; SourceRDNS; SourceDHCP; SourceHostsFile] →
  ∃ v',
    Runtime.SetInfo (Some l) cs (Some [""]) h = Returned (tt, <[l := v']> h) ∧
    Runtime.SetInfo (Some l) cs (Some []) h = Returned (tt, <[l := v']> h) ∧
    names cs v' = Some [] ∧
    (∀ cs', cs' ≠ cs → names cs' v' = names cs' v) ∧
    Runtime.whois v' = Runtime.whois v ∧
    Runtime.ip v' = Runtime.ip v.
Proof.
  intros Hl Hcs. exists (updated cs (Some []) v).
  rewrite !(SetInfo_live _ _ _ _ _ Hl). do 2 (split; [done|]).
  apply list_sources_inv in Hcs.
  destruct Hcs as [-> | [-> | [-> | -> ]]];
    (split; [done|]); (split; [|done]);
    intros cs' Hne; unfold names, updated; simpl;
    destruct cs' as [|p]; try done;
    do 3 (try destruct p as [p|p|]); done.
Qed.

(** The nil slice is not the empty list: [SetInfo] stores it as it is, and
    the slot is then absent. *)
Lemma SetInfo_nil h l v cs :
  h !! l = Some v →
  cs ∈ [SourceARP; SourceRDNS; SourceDHCP; SourceHostsFile] →
  Runtime.SetInfo (Some l) cs None h = Returned (tt, <[l := cleared cs v]> h).
Proof.
  intros Hl Hcs. rewrite (SetInfo_live _ _ _ _ _ Hl). do 3 f_equal.
  apply list_sources_inv in Hcs.
  by destruct Hcs as [-> | [-> | [-> | -> ]]].
Qed.

(** C5. Setting the slot of one of the five sources ([SetWHOIS] for WHOIS,
    [SetInfo] for the list-valued ones) and then [Unset] of the same source
    leaves the record with that slot nil and every other field as it was;
    when no other slot held data, [IsEmpty] is then true. *)
Theorem Unset_after_update h l v cs hosts info :
  h !! l = Some v →
  cs ∈ [SourceWHOIS; SourceARP; SourceRDNS; SourceDHCP; SourceHostsFile] →
  let update :=
    if decide (cs = SourceWHOIS) then Runtime.SetWHOIS (Some l) info
    else Runtime.SetInfo (Some l) cs hosts in
  let h' := <[l := cleared cs v]> h in
  (_ ← update; Runtime.Unset (Some l) cs) h = Returned (tt, h') ∧
  present cs (cleared cs v) = false ∧
  names cs (cleared cs v) = None ∧
  Runtime.WHOIS (Some l) h' =
    Returned (if decide (cs = SourceWHOIS) then None else Runtime.whois v, h') ∧
  ((∀ cs', cs' ≠ cs → present cs' v = false) →
   Runtime.IsEmpty (Some l) h' = Returned (true, h')).
Proof.
  intros Hl Hcs update h'. subst update h'.
  assert (Hl' : <[l := cleared cs v]> h !! l = Some (cleared cs v))
    by apply lookup_insert_eq.
  rewrite elem_of_cons in Hcs. destruct Hcs as [->|Hcs].
  - rewrite decide_True by done. split.
    + unfold Runtime.SetWHOIS.
      rewrite (bind_returned _ _ _ _ _ (store_live _ _ _ _ Hl)).
      erewrite Unset_live by apply lookup_insert_eq.
      by rewrite insert_insert_eq.
    + repeat split.
      * unfold Runtime.WHOIS.
        by rewrite (bind_returned _ _ _ _ _ (load_live _ _ _ Hl')).
      * intros Hothers. rewrite (IsEmpty_live _ _ _ Hl'). f_equal. f_equal.
        pose proof (Hothers SourceARP) as H2.
        pose proof (Hothers SourceRDNS) as H3.
        pose proof (Hothers SourceDHCP) as H4.
        pose proof (Hothers SourceHostsFile) as H5.
        unfold empty, present, cleared in *. simpl in *.
        rewrite H2, H3, H4, H5 by done. done.
  - apply list_sources_inv in Hcs.
    assert (cs ≠ SourceWHOIS) as Hne by (by destruct Hcs as [-> | [-> | [-> | -> ]]]).
    rewrite !decide_False by done. split.
    + rewrite (bind_returned _ _ _ _ _ (SetInfo_live _ _ _ _ _ Hl)).
      erewrite Unset_live by apply lookup_insert_eq.
      rewrite insert_insert_eq. do 3 f_equal.
      by destruct Hcs as [-> | [-> | [-> | -> ]]].
    + split; [by destruct Hcs as [-> | [-> | [-> | -> ]]]|].
      split; [by destruct Hcs as [-> | [-> | [-> | -> ]]]|].
      split.
      * unfold Runtime.WHOIS.
        rewrite (bind_returned _ _ _ _ _ (load_live _ _ _ Hl')).
        by destruct Hcs as [-> | [-> | [-> | -> ]]].
      * intros Hothers. rewrite (IsEmpty_live _ _ _ Hl'). f_equal. f_equal.
        pose proof (Hothers SourceWHOIS) as H1.
        pose proof (Hothers SourceARP) as H2.
        pose proof (Hothers SourceRDNS) as H3.
        pose proof (Hothers SourceDHCP) as H4.
        pose proof (Hothers SourceHostsFile) as H5.
        unfold empty, present, cleared in *.
        destruct Hcs as [-> | [-> | [-> | -> ]]]; simpl in *;
          repeat match goal with
          | H : _ ≠ _ → _ |- _ => first [rewrite H by done | clear H]
          end; done.
Qed.

(** C6. [SetInfo] with a source that is not list-valued (WHOIS, persistent,
    zero, anything above) and [Unset] with a source that is none of the five
    return without a panic and leave the whole store, and so every field of
    the record, as it was. *)
Theorem unsupported_source_ignored h l v cs hosts :
  h !! l = Some v →
  (cs ∉ [SourceARP; SourceRDNS; SourceDHCP; SourceHostsFile] →
   Runtime.SetInfo (Some l) cs hosts h = Returned (tt, h)) ∧
  (cs ∉ [SourceWHOIS; SourceARP; SourceRDNS; SourceDHCP; SourceHostsFile] →
   Runtime.Unset (Some l) cs h = Returned (tt, h)) ∧
  Runtime.SetInfo (Some l) SourceWHOIS hosts h = Returned (tt, h) ∧
  Runtime.SetInfo (Some l) SourcePersistent hosts h = Returned (tt, h) ∧
  Runtime.Unset (Some l) SourcePersistent h = Returned (tt, h).
Proof.
  intros Hl.
  assert (Hset : ∀ cs',
    cs' ∉ [SourceARP; SourceRDNS; SourceDHCP; SourceHostsFile] →
    Runtime.SetInfo (Some l) cs' hosts h = Returned (tt, h)).
  { intros cs' Hcs. rewrite !not_elem_of_cons in Hcs.
    destruct Hcs as (? & ? & ? & ? & _).
    rewrite (SetInfo_live _ _ _ _ _ Hl). do 2 f_equal.
    unfold updated. rewrite !decide_False by done.
    destruct v. by apply insert_id. }
  assert (Hunset : ∀ cs',
    cs' ∉ [SourceWHOIS; SourceARP; SourceRDNS; SourceDHCP; SourceHostsFile] →
    Runtime.Unset (Some l) cs' h = Returned (tt, h)).
  { intros cs' Hcs. rewrite !not_elem_of_cons in Hcs.
    destruct Hcs as (? & ? & ? & ? & ? & _).
    rewrite (Unset_live _ _ _ _ Hl). do 2 f_equal.
    unfold cleared. rewrite !decide_False by done.
    destruct v. by apply insert_id. }
  split; [apply Hset|]. split; [apply Hunset|].
  split; [|split]; [apply Hset|apply Hset|apply Hunset];
    rewrite !not_elem_of_cons; repeat split; try discriminate;
    apply not_elem_of_nil.
Qed.

(** C10. [SetWHOIS] does not check that its argument is not nil: with nil
    it does to the record exactly what [Unset] of WHOIS does.  [WHOIS] then
    returns nil, and [IsEmpty] is true when the four lists are nil too. *)
Theorem SetWHOIS_nil_is_Unset h l v :
  h !! l = Some v →
  let h' := <[l := cleared SourceWHOIS v]> h in
  Runtime.SetWHOIS (Some l) None h = Returned (tt, h') ∧
  Runtime.Unset (Some l) SourceWHOIS h = Returned (tt, h') ∧
  Runtime.WHOIS (Some l) h' = Returned (None, h') ∧
  (Runtime.arp v = None → Runtime.rdns v = None →
   Runtime.dhcp v = None → Runtime.hostsFile v = None →
   Runtime.IsEmpty (Some l) h' = Returned (true, h')).
Proof.
  intros Hl h'. subst h'.
  assert (Hl' : <[l := cleared SourceWHOIS v]> h !! l
                = Some (cleared SourceWHOIS v)) by apply lookup_insert_eq.
  split; [by rewrite <-(Unset_live _ _ _ _ Hl)|].
  split; [by apply Unset_live|]. split.
  - unfold Runtime.WHOIS.
    by rewrite (bind_returned _ _ _ _ _ (load_live _ _ _ Hl')).
  - intros Ha Hr Hd Hf. rewrite (IsEmpty_live _ _ _ Hl').
    unfold empty, present, cleared. simpl. by rewrite Ha, Hr, Hd, Hf.
Qed.

(** An operation on a record of the store returns, and leaves every record
    of the store in place with the address it had. *)
Lemma run_op_live h l0 v0 (o : op whois_Info) :
  h !! l0 = Some v0 →
  ∃ h', run_op (Some l0) o h = Returned (tt, h') ∧
        ∀ l v, h !! l = Some v →
               ∃ v', h' !! l = Some v' ∧ Runtime.ip v' = Runtime.ip v.
Proof.
  intros Hl0.
  assert (Hupd : ∀ v0', Runtime.ip v0' = Runtime.ip v0 →
    ∀ l v, h !! l = Some v →
    ∃ v', <[l0 := v0']> h !! l = Some v' ∧ Runtime.ip v' = Runtime.ip v).
  { intros v0' Hip l v Hl. destruct (decide (l0 = l)) as [->|Hne].
    - rewrite lookup_insert_eq. exists v0'. split; [done|]. congruence.
    - rewrite lookup_insert_ne by done. eauto. }
  destruct o as [cs hosts|info|cs| | |]; cbn [run_op].
  - rewrite (SetInfo_live _ _ _ _ _ Hl0). eexists. split; [done|].
    by apply Hupd.
  - unfold Runtime.SetWHOIS. rewrite (store_live _ _ _ _ Hl0).
    eexists. split; [done|]. by apply Hupd.
  - rewrite (Unset_live _ _ _ _ Hl0). eexists. split; [done|].
    by apply Hupd.
  - destruct (Info_returns _ _ _ Hl0) as (cs & host & Hinfo).
    rewrite (bind_returned _ _ _ _ _ Hinfo). exists h. split; [done|]. eauto.
  - unfold Runtime.WHOIS.
    rewrite (bind_returned _ _ _ _ _
               (bind_returned _ _ _ _ _ (load_live _ _ _ Hl0))).
    exists h. split; [done|]. eauto.
  - rewrite (bind_returned _ _ _ _ _ (IsEmpty_live _ _ _ Hl0)).
    exists h. split; [done|]. eauto.
Qed.

(** C9. No sequence of [SetInfo], [SetWHOIS], [Unset], [Info], [WHOIS] and
    [IsEmpty] on records of the store reassigns the address of a record:
    the sequence returns, and [Addr] then returns what the record held
    before, which for a record from [NewRuntime] is the address it was
    constructed with. *)
Theorem Addr_never_reassigned h (os : list (ptr * op whois_Info)) l v :
  (∀ r o, (r, o) ∈ os → ∃ l0, r = Some l0 ∧ is_Some (h !! l0)) →
  h !! l = Some v →
  Runtime.Addr (Some l) h = Returned (Runtime.ip v, h) ∧
  ∃ h', run_ops os h = Returned (tt, h') ∧
        Runtime.Addr (Some l) h' = Returned (Runtime.ip v, h').
Proof.
  intros Hos Hl. split.
  { unfold Runtime.Addr.
    by rewrite (bind_returned _ _ _ _ _ (load_live _ _ _ Hl)). }
  cut (∃ h', run_ops os h = Returned (tt, h') ∧
             ∃ v', h' !! l = Some v' ∧ Runtime.ip v' = Runtime.ip v).
  { intros (h' & Hrun & v' & Hl' & Hip). exists h'. split; [done|].
    unfold Runtime.Addr.
    rewrite (bind_returned _ _ _ _ _ (load_live _ _ _ Hl')).
    go_unfold. by rewrite Hip. }
  revert h v Hos Hl. induction os as [|[r o] os IH]; intros h v Hos Hl.
  - exists h. split; [done|]. eauto.
  - destruct (Hos r o) as (l0 & -> & v0 & Hl0); [left|].
    destruct (run_op_live h l0 v0 o Hl0) as (h1 & Hrun1 & Hkeep).
    destruct (Hkeep l v Hl) as (v1 & Hl1 & Hip1).
    destruct (IH h1 v1) as (h' & Hrun & v' & Hl' & Hip'); [|done|].
    { intros r' o' Hin. destruct (Hos r' o') as (l' & -> & w & Hw); [by right|].
      destruct (Hkeep l' w Hw) as (w' & Hw' & _). eauto. }
    exists h'. split.
    + simpl. by rewrite (bind_returned _ _ _ _ _ Hrun1).
    + exists v'. split; [done|]. congruence.
Qed.

Lemma NewRuntime_fresh h (a : netip.Addr) :
  ∃ l, h !! l = None ∧
       NewRuntime a h
         = Returned (Some l, <[l := Runtime.mk a None None None None None]> h).
Proof.
  exists (fresh (dom h)). split; [apply not_elem_of_dom, is_fresh|done].
Qed.

(** C7, as the code has it.  [NewRuntime] does not look at the address and
    always returns: for every address, valid or not, it allocates a record
    with that address and all five slots nil.  No operation on a record of
    the store panics either. *)
Theorem NewRuntime_total h (a : netip.Addr) :
  ∃ l, let h' := <[l := Runtime.mk a None None None None None]> h in
    h !! l = None ∧
    NewRuntime a h = Returned (Some l, h') ∧
    Runtime.Addr (Some l) h' = Returned (a, h') ∧
    Runtime.WHOIS (Some l) h' = Returned (None, h') ∧
    Runtime.Info (Some l) h' = Returned ((0%N, ""), h') ∧
    Runtime.IsEmpty (Some l) h' = Returned (true, h') ∧
    (∀ l0 (o : op whois_Info), is_Some (h' !! l0) →
       returns (run_op (Some l0) o h') = true ∧
       returns (Runtime.Addr (Some l0) h') = true).
Proof.
  destruct (NewRuntime_fresh h a) as (l & Hfresh & Hnew).
  exists l. intros h'.
  assert (Hl' : h' !! l = Some (Runtime.mk a None None None None None))
    by apply lookup_insert_eq.
  do 2 (split; [done|]).
  unfold Runtime.Addr, Runtime.WHOIS, Runtime.Info.
  rewrite (IsEmpty_live _ _ _ Hl').
  rewrite !(bind_returned _ _ _ _ _ (load_live _ _ _ Hl')).
  do 4 (split; [done|]). intros l0 o [v0 Hl0]. split.
  - by destruct (run_op_live h' l0 v0 o Hl0) as (h1 & -> & _).
  - by rewrite (bind_returned _ _ _ _ _ (load_live _ _ _ Hl0)).
Qed.

End RuntimeProperties.

(** ** [RuntimeIndex] *)

Section RuntimeIndexProperties.
Context {whois_Info : Type}.
Implicit Types (σ : RuntimeIndex.state whois_Info) (v : Runtime.t whois_Info).
Implicit Types (l : loc) (ip : netip.Addr) (src cs : Source).

Import RuntimeIndex.

Lemma on_records_returned {A} (m : go (heap whois_Info) A) σ a h :
  m (records σ) = Returned (a, h) →
  on_records m σ = Returned (a, State h (index σ)).
Proof. intros Hm. unfold on_records. by rewrite Hm. Qed.

Lemma Client_lookup σ ip :
  Client ip σ =
    Returned (match index σ !! ip with
              | Some rc => (rc, true)
              | None => (None, false)
              end, σ).
Proof. unfold Client. go_unfold. by destruct (index σ !! ip). Qed.

Lemma Add_live σ l v :
  records σ !! l = Some v →
  Add (Some l) σ =
    Returned (tt, State (records σ) (<[Runtime.ip v := Some l]> (index σ))).
Proof.
  intros Hl. unfold Add.
  assert (Haddr : Runtime.Addr (Some l) (records σ)
                  = Returned (Runtime.ip v, records σ)).
  { unfold Runtime.Addr.
    by rewrite (bind_returned _ _ _ _ _ (load_live _ _ _ Hl)). }
  rewrite (bind_returned _ _ _ _ _ (on_records_returned _ _ _ _ Haddr)).
  done.
Qed.

(** C4. [Add] stores the pointer under the address of the record it leads
    to.  After [Add] of two records with the same address the map holds one
    entry for that address, the second pointer, and [Client] returns it with
    [true]; the entries of other addresses are as before. *)
Theorem Add_overwrites σ l1 l2 v1 v2 :
  records σ !! l1 = Some v1 →
  records σ !! l2 = Some v2 →
  Runtime.ip v1 = Runtime.ip v2 →
  let a := Runtime.ip v2 in
  let σ' := State (records σ) (<[a := Some l2]> (index σ)) in
  (_ ← Add (Some l1); Add (Some l2)) σ = Returned (tt, σ') ∧
  Client a σ' = Returned ((Some l2, true), σ') ∧
  filter (λ e, e.1 = a) (index σ') = {[a := Some l2]} ∧
  (∀ ip, ip ≠ a → index σ' !! ip = index σ !! ip).
Proof.
  intros Hl1 Hl2 Hip a σ'. subst a σ'. split; [|split; [|split]].
  - rewrite (bind_returned _ _ _ _ _ (Add_live _ _ _ Hl1)).
    rewrite (Add_live _ l2 v2) by done. simpl.
    by rewrite Hip, insert_insert_eq.
  - rewrite Client_lookup. simpl. by rewrite lookup_insert_eq.
  - simpl. apply map_eq. intros ip. apply option_eq. intros rc.
    rewrite map_lookup_filter_Some, lookup_singleton_Some. simpl. split.
    + intros [Hlook ->]. rewrite lookup_insert_eq in Hlook. by simplify_eq.
    + intros [<- <-]. by rewrite lookup_insert_eq.
  - intros ip Hne. simpl. by rewrite lookup_insert_ne.
Qed.

(** The registries the package builds hold live pointers only. *)
Lemma live_NewRuntimeIndex (h : heap whois_Info) : live (NewRuntimeIndex h).
Proof. intros ip rc Hrc. simpl in Hrc. by rewrite lookup_empty in Hrc. Qed.

Lemma live_Add σ l v :
  live σ → records σ !! l = Some v →
  ∃ σ', Add (Some l) σ = Returned (tt, σ') ∧ live σ'.
Proof.
  intros Hlive Hl. eexists. split; [by apply Add_live|].
  intros ip rc Hrc. simpl in *. apply lookup_insert_Some in Hrc.
  destruct Hrc as [[_ <-]|[_ Hrc]]; [by eauto|]. by apply (Hlive ip).
Qed.

Lemma live_Delete σ ip :
  live σ → ∃ σ', Delete ip σ = Returned (tt, σ') ∧ live σ'.
Proof.
  intros Hlive. eexists. split; [done|].
  intros ip' rc Hrc. simpl in *. apply lookup_delete_Some in Hrc as [_ Hrc].
  by apply (Hlive ip').
Qed.

Lemma live_run_op σ l v (o : op whois_Info) :
  live σ → records σ !! l = Some v →
  ∃ σ', on_records (run_op (Some l) o) σ = Returned (tt, σ') ∧ live σ'.
Proof.
  intros Hlive Hl. destruct (run_op_live _ _ _ o Hl) as (h' & Hrun & Hkeep).
  eexists. split; [by apply on_records_returned|].
  intros ip rc Hrc. simpl in *.
  destruct (Hlive ip rc Hrc) as (l' & -> & v' & Hl').
  destruct (Hkeep l' v' Hl') as (v1 & Hv1 & _). eauto.
Qed.

Lemma live_NewRuntime σ (a : netip.Addr) :
  live σ → ∃ r σ', on_records (NewRuntime a) σ = Returned (r, σ') ∧ live σ'.
Proof.
  intros Hlive. destruct (NewRuntime_fresh (records σ) a) as (l & Hfresh & Hnew).
  eexists _, _. split; [by apply on_records_returned|].
  intros ip rc Hrc. simpl in *.
  destruct (Hlive ip rc Hrc) as (l' & -> & v' & Hl').
  exists l'. split; [done|]. rewrite lookup_insert_ne; [by eauto|].
  intros ->. congruence.
Qed.

Lemma cleared_idemp src v : cleared src (cleared src v) = cleared src v.
Proof. unfold cleared. simpl. by repeat case_decide. Qed.

Lemma present_cleared cs src v :
  present cs (cleared src v) = if decide (cs = src) then false else present cs v.
Proof.
  unfold present, cleared. destruct cs as [|p]; [by case_decide|].
  do 3 (try destruct p as [p|p|]); simpl;
    repeat case_decide; subst; try done; congruence.
Qed.

Lemma empty_cleared_only src v :
  (∀ cs, present cs v = true → cs = src) → empty (cleared src v) = true.
Proof.
  intros Honly.
  assert (Hcs : ∀ cs, present cs (cleared src v) = false).
  { intros cs. rewrite present_cleared. case_decide; [done|].
    destruct (present cs v) eqn:Hp; [|done]. by apply Honly in Hp. }
  unfold empty. cbn [forallb]. by rewrite !Hcs.
Qed.

Lemma empty_cleared_other src cs v :
  cs ≠ src → present cs v = true → empty (cleared src v) = false.
Proof.
  intros Hne Hp.
  assert (Hcs : present cs (cleared src v) = true).
  { rewrite present_cleared. by rewrite decide_False. }
  clear Hp. unfold empty. cbn [forallb]. apply present_inv in Hcs as Hcase.
  destruct Hcase as [[-> _]|[[-> _]|[[-> _]|[[-> _]|[-> _]]]]];
    rewrite Hcs; cbn [negb andb]; by rewrite ?andb_false_r.
Qed.

Lemma range_index_cons body ip order n σ :
  range_index body (ip :: order) n σ =
    match index σ !! ip with
    | Some rc => (body ip rc n ≫= range_index body order) σ
    | None => range_index body order n σ
    end.
Proof. cbn [range_index]. go_unfold. by destruct (index σ !! ip). Qed.

(** One turn of the loop on an entry whose pointer leads to [v]. *)
Lemma DeleteBySrc_body_live σ src ip l v n :
  records σ !! l = Some v →
  DeleteBySrc_body src ip (Some l) n σ =
    Returned (if empty (cleared src v) then S n else n,
              State (<[l := cleared src v]> (records σ))
                    (if empty (cleared src v) then delete ip (index σ)
                     else index σ)).
Proof.
  intros Hl. unfold DeleteBySrc_body.
  rewrite (bind_returned _ _ _ _ _
             (on_records_returned _ _ _ _ (Unset_live _ _ _ src Hl))).
  set (σ1 := State _ _).
  assert (Hl1 : records σ1 !! l = Some (cleared src v))
    by apply lookup_insert_eq.
  rewrite (bind_returned _ _ _ _ _
             (on_records_returned _ _ _ _ (IsEmpty_live _ _ _ Hl1))).
  by destruct (empty (cleared src v)).
Qed.

(** The loop over any list of distinct keys of the map. *)
Lemma range_index_DeleteBySrc src order :
  NoDup order →
  ∀ σ n,
    live σ →
    (∀ ip, ip ∈ order → is_Some (index σ !! ip)) →
    ∃ n' σ',
      range_index (DeleteBySrc_body src) order n σ = Returned (n', σ') ∧
      (∀ ip l v,
         ip ∈ order → index σ !! ip = Some (Some l) → records σ !! l = Some v →
         records σ' !! l = Some (cleared src v) ∧
         index σ' !! ip =
           if empty (cleared src v) then None else Some (Some l)) ∧
      (∀ l, (∀ ip, ip ∈ order → index σ !! ip ≠ Some (Some l)) →
            records σ' !! l = records σ !! l) ∧
      (∀ ip, ip ∉ order → index σ' !! ip = index σ !! ip) ∧
      n' + size (index σ') = n + size (index σ).
Proof.
  induction 1 as [|k ks Hk Hnodup IH]; intros σ n Hlive Hkeys.
  { exists n, σ. split; [done|]. split; [|done].
    intros ip l v Hin. by apply elem_of_nil in Hin. }
  destruct (Hkeys k) as [rc Hrc]; [left|].
  destruct (Hlive k rc Hrc) as (l & -> & v & Hl).
  pose proof (DeleteBySrc_body_live σ src k l v n Hl) as Hbody.
  set (e := empty (cleared src v)) in *.
  set (m1 := if e then delete k (index σ) else index σ) in *.
  set (n1 := if e then S n else n) in *.
  set (σ1 := State (<[l := cleared src v]> (records σ)) m1) in *.
  assert (Hm1 : ∀ ip, ip ≠ k → m1 !! ip = index σ !! ip).
  { intros ip Hne. subst m1. destruct e; [|done]. by rewrite lookup_delete_ne. }
  assert (Hm1k : m1 !! k = if e then None else Some (Some l)).
  { subst m1. destruct e; [|done]. by rewrite lookup_delete_eq. }
  assert (Hsize : n1 + size m1 = n + size (index σ)).
  { subst n1 m1. destruct e; [|done].
    rewrite map_size_delete_Some by eauto.
    pose proof (map_size_ne_0_lookup_2 (index σ) k) as Hpos.
    destruct (size (index σ)); [by destruct Hpos; eauto|simpl; lia]. }
  assert (Hsub : ∀ ip rc, m1 !! ip = Some rc → index σ !! ip = Some rc).
  { intros ip rc. subst m1. destruct e; [|done].
    rewrite lookup_delete_Some. tauto. }
  assert (Hrec1 : ∀ l' v', records σ !! l' = Some v' →
    ∃ v1, records σ1 !! l' = Some v1 ∧ cleared src v1 = cleared src v').
  { intros l' v' Hl'. simpl. destruct (decide (l = l')) as [->|Hne].
    - rewrite lookup_insert_eq. exists (cleared src v). split; [done|].
      rewrite cleared_idemp. congruence.
    - rewrite lookup_insert_ne by done. eauto. }
  destruct (IH σ1 n1) as (n' & σ' & Hrun & Hon & Hoff & Hout & Hcount).
  { intros ip rc Hip. apply Hsub in Hip.
    destruct (Hlive ip rc Hip) as (l' & -> & v' & Hl').
    destruct (Hrec1 l' v' Hl') as (v1 & Hv1 & _). eauto. }
  { intros ip Hin. simpl. rewrite Hm1; [by apply Hkeys; right|].
    by intros ->. }
  exists n', σ'. split; [|split; [|split; [|split]]].
  - rewrite range_index_cons, Hrc. by rewrite (bind_returned _ _ _ _ _ Hbody).
  - intros ip l' v' Hin Hip Hl'. apply elem_of_cons in Hin.
    destruct (decide (ip = k)) as [->|Hne].
    + rewrite Hrc in Hip. injection Hip as <-.
      rewrite Hl in Hl'. injection Hl' as <-.
      split; [|by rewrite (Hout k Hk)].
      destruct (decide (Exists (λ k', index σ !! k' = Some (Some l)) ks))
        as [Hex|Hnex].
      * apply Exists_exists in Hex as (k' & Hk' & Hk'l).
        destruct (Hon k' l (cleared src v)) as [Hgoal _]; [done| |by apply
          lookup_insert_eq|by rewrite cleared_idemp in Hgoal].
        simpl. rewrite Hm1; [done|]. by intros ->.
      * rewrite Hoff; [by apply lookup_insert_eq|].
        intros k' Hk' Hk'l. apply Hnex, Exists_exists. exists k'.
        split; [done|]. simpl in Hk'l. rewrite Hm1 in Hk'l; [done|].
        by intros ->.
    + destruct Hin as [->|Hin]; [done|].
      destruct (Hrec1 l' v' Hl') as (v1 & Hv1 & Hclr).
      destruct (Hon ip l' v1) as [Hgoal1 Hgoal2]; [done| |done|].
      { simpl. by rewrite Hm1. }
      by rewrite Hclr in Hgoal1, Hgoal2.
  - intros l' Hnone. rewrite Hoff.
    + simpl. rewrite lookup_insert_ne; [done|].
      intros ->. by apply (Hnone k); [left|].
    + intros ip Hin. simpl. rewrite Hm1; [by apply Hnone; right|].
      by intros ->.
  - intros ip Hnotin. apply not_elem_of_cons in Hnotin as [Hne Hnotin].
    rewrite (Hout ip Hnotin). simpl. by apply Hm1.
  - simpl in Hcount. lia.
Qed.

Lemma elem_of_keys σ ip : ip ∈ keys σ ↔ is_Some (index σ !! ip).
Proof.
  unfold keys. rewrite list_elem_of_fmap. split.
  - intros ([ip' rc] & -> & Hin). apply elem_of_map_to_list in Hin. eauto.
  - intros [rc Hrc]. exists (ip, rc). split; [done|].
    by apply elem_of_map_to_list.
Qed.

(** C2. Whatever the order of the enumeration, [DeleteBySrc] returns; it
    clears the slot of [src] in every record the registry leads to and
    touches no other record; an entry stays in the map exactly when its
    record, with the slot cleared, still holds data; and the count returned
    is the number of entries removed.  So a record whose only data was from
    [src] is no longer found by [Client], and a record with data from another
    source is still found, without its [src] data, and is not counted. *)
Theorem DeleteBySrc_removes_emptied σ order src :
  live σ →
  order ≡ₚ keys σ →
  ∃ n σ',
    DeleteBySrc order src σ = Returned (n, σ') ∧
    (∀ ip l v,
       index σ !! ip = Some (Some l) → records σ !! l = Some v →
       records σ' !! l = Some (cleared src v) ∧
       index σ' !! ip = (if empty (cleared src v) then None else Some (Some l)) ∧
       ((∀ cs, present cs v = true → cs = src) →
        Client ip σ' = Returned ((None, false), σ')) ∧
       (∀ cs, cs ≠ src → present cs v = true →
        Client ip σ' = Returned ((Some l, true), σ'))) ∧
    (∀ ip, index σ !! ip = None → index σ' !! ip = None) ∧
    (∀ l, (∀ ip, index σ !! ip ≠ Some (Some l)) →
          records σ' !! l = records σ !! l) ∧
    n + size (index σ') = size (index σ) ∧
    live σ'.
Proof.
  intros Hlive Hperm.
  assert (Hnodup : NoDup order).
  { rewrite Hperm. apply NoDup_fst_map_to_list. }
  assert (Hin : ∀ ip, ip ∈ order ↔ is_Some (index σ !! ip)).
  { intros ip. rewrite Hperm. apply elem_of_keys. }
  destruct (range_index_DeleteBySrc src order Hnodup σ 0 Hlive)
    as (n & σ' & Hrun & Hon & Hoff & Hout & Hcount).
  { intros ip. apply Hin. }
  assert (Hgone : ∀ ip, index σ !! ip = None → index σ' !! ip = None).
  { intros ip Hnone. rewrite Hout; [done|].
    rewrite Hin, Hnone. by intros [? ?]. }
  exists n, σ'. split; [done|]. split; [|split; [|split; [|split]]].
  - intros ip l v Hip Hl.
    destruct (Hon ip l v) as [Hrec Hidx]; [apply Hin; eauto|done..|].
    split; [done|]. split; [done|]. split.
    + intros Honly. rewrite Client_lookup, Hidx.
      by rewrite (empty_cleared_only _ _ Honly).
    + intros cs Hne Hcs. rewrite Client_lookup, Hidx.
      by rewrite (empty_cleared_other _ _ _ Hne Hcs).
  - done.
  - intros l Hnone. apply Hoff. intros ip _. apply Hnone.
  - done.
  - intros ip rc Hrc'. destruct (index σ !! ip) as [rc0|] eqn:Hip.
    + destruct (Hlive ip rc0 Hip) as (l & -> & v & Hl).
      destruct (Hon ip l v) as [Hrec Hidx]; [apply Hin; eauto|done..|].
      rewrite Hidx in Hrc'. destruct (empty (cleared src v)); [done|].
      injection Hrc' as <-. exists l. split; [done|]. by rewrite Hrec.
    + by rewrite (Hgone ip Hip) in Hrc'.
Qed.

End RuntimeIndexProperties.

(** ** The properties on the sample values *)

(** The client at 192.0.2.10: DHCP outranks ARP, and the hosts file, once
    it has reported no name, outranks both. *)
Example scenario_resolve :
  (r ← NewRuntime addr1;
   _ ← Runtime.SetInfo r SourceDHCP (Some ["host.example"]);
   _ ← Runtime.SetInfo r SourceARP (Some ["other"]);
   first ← Runtime.Info r;
   _ ← Runtime.SetInfo r SourceHostsFile (Some [""]);
   second ← Runtime.Info r;
   mret (first, second)) (∅ : heap string)
  = Returned (((SourceDHCP, "host.example"), (SourceHostsFile, "")),
              {[ 1%positive :=
                   Runtime.mk addr1 None (Some ["other"]) None
                     (Some ["host.example"]) (Some []) ]}).
Proof. vm_compute. reflexivity. Qed.

(** The registry of two clients: clearing ARP removes the client known from
    ARP only and keeps the other with its DHCP name. *)
Example scenario_clear_source :
  (n ← RuntimeIndex.DeleteBySrc (RuntimeIndex.keys two_indexed) SourceARP;
   first ← RuntimeIndex.Client addr1;
   second ← RuntimeIndex.Client addr2;
   size ← RuntimeIndex.Size;
   mret (n, first, second, size)) two_indexed
  = Returned
      ((1%nat, (None, false), (Some 2%positive, true), 1%nat),
       RuntimeIndex.State
         {[ 1%positive := Runtime.mk addr1 None None None None None;
            2%positive := Runtime.mk addr2 None None None (Some ["c"]) None ]}
         {[ addr2 := Some 2%positive ]}).
Proof. vm_compute. reflexivity. Qed.

Lemma Info_priority_witness :
  ({[ 1%positive := dhcp_arp_client ]} : heap string) !! 1%positive
    = Some dhcp_arp_client ∧
  Runtime.Info (Some 1%positive) {[ 1%positive := dhcp_arp_client ]}
    = Returned ((SourceDHCP, "host.example"),
                {[ 1%positive := dhcp_arp_client ]}).
Proof.
  assert (Hl : ({[ 1%positive := dhcp_arp_client ]} : heap string) !! 1%positive
               = Some dhcp_arp_client) by reflexivity.
  split; [exact Hl|].
  destruct (Info_priority _ _ _ Hl) as (cs & host & Hinfo & Htable & _).
  simpl in Htable. destruct Htable as [-> ->]. exact Hinfo.
Defined.

Lemma live_two_indexed : live two_indexed.
Proof.
  intros ip rc Hrc. unfold two_indexed, RuntimeIndex.index in Hrc.
  apply lookup_insert_Some in Hrc.
  destruct Hrc as [[<- <-]|[_ Hrc]].
  - exists 1%positive. split; [done|]. by exists arp_client.
  - apply lookup_singleton_Some in Hrc as [<- <-].
    exists 2%positive. split; [done|]. by exists arp_dhcp_client.
Defined.

Lemma DeleteBySrc_removes_emptied_witness :
  live two_indexed ∧
  [addr2; addr1] ≡ₚ RuntimeIndex.keys two_indexed ∧
  ∃ σ',
    RuntimeIndex.DeleteBySrc [addr2; addr1] SourceARP two_indexed
      = Returned (1%nat, σ') ∧
    RuntimeIndex.Client addr1 σ' = Returned ((None, false), σ') ∧
    RuntimeIndex.Client addr2 σ' = Returned ((Some 2%positive, true), σ') ∧
    RuntimeIndex.records σ' !! 2%positive
      = Some (Runtime.mk addr2 None None None (Some ["c"]) None).
Proof.
  assert (Hperm : [addr2; addr1] ≡ₚ RuntimeIndex.keys two_indexed)
    by (vm_compute; apply perm_swap).
  split; [exact live_two_indexed|]. split; [exact Hperm|].
  destruct (DeleteBySrc_removes_emptied two_indexed [addr2; addr1] SourceARP
              live_two_indexed Hperm)
    as (n & σ' & Hrun & Hon & _ & _ & Hcount & _).
  exists σ'.
  destruct (Hon addr1 1%positive arp_client)
    as (_ & Hidx1 & Hgone & _); [reflexivity..|].
  destruct (Hon addr2 2%positive arp_dhcp_client)
    as (Hrec2 & Hidx2 & _ & Hkept); [reflexivity..|].
  assert (Hn : n = 1%nat).
  { pose proof Hrun as Heval. vm_compute in Heval.
    injection Heval as Hn _. exact (eq_sym Hn). }
  subst n. split; [exact Hrun|]. split; [|split].
  - apply Hgone. intros cs Hcs. apply present_inv in Hcs.
    destruct Hcs as [[_ H]|[[-> _]|[[_ H]|[[_ H]|[_ H]]]]];
      first [reflexivity | exfalso; apply H; reflexivity].
  - apply (Hkept SourceDHCP); [discriminate|reflexivity].
  - exact Hrec2.
Defined.

Lemma SetInfo_empty_string_witness :
  ({[ 1%positive := dhcp_arp_client ]} : heap string) !! 1%positive
    = Some dhcp_arp_client ∧
  SourceHostsFile ∈ [SourceARP; SourceRDNS; SourceDHCP; SourceHostsFile] ∧
  Runtime.SetInfo (Some 1%positive) SourceHostsFile (Some [""])
      {[ 1%positive := dhcp_arp_client ]}
    = Runtime.SetInfo (Some 1%positive) SourceHostsFile (Some [])
        {[ 1%positive := dhcp_arp_client ]}.
Proof.
  assert (Hl : ({[ 1%positive := dhcp_arp_client ]} : heap string) !! 1%positive
               = Some dhcp_arp_client) by reflexivity.
  assert (Hcs : SourceHostsFile
                ∈ [SourceARP; SourceRDNS; SourceDHCP; SourceHostsFile]).
  { do 3 right. left. }
  split; [exact Hl|]. split; [exact Hcs|].
  destruct (SetInfo_empty_string _ _ _ _ Hl Hcs) as (v' & Hone & Hnone & _).
  rewrite Hnone. exact Hone.
Defined.

Lemma Add_overwrites_witness :
  same_address !! 1%positive = Some arp_client ∧
  same_address !! 2%positive = Some dhcp_arp_client ∧
  Runtime.ip arp_client = Runtime.ip dhcp_arp_client ∧
  let σ' := RuntimeIndex.State same_address (<[addr1 := Some 2%positive]> ∅) in
  (_ ← RuntimeIndex.Add (Some 1%positive);
   RuntimeIndex.Add (Some 2%positive)) (NewRuntimeIndex same_address)
    = Returned (tt, σ') ∧
  RuntimeIndex.Client addr1 σ' = Returned ((Some 2%positive, true), σ').
Proof.
  assert (Hl1 : same_address !! 1%positive = Some arp_client) by reflexivity.
  assert (Hl2 : same_address !! 2%positive = Some dhcp_arp_client)
    by reflexivity.
  assert (Hip : Runtime.ip arp_client = Runtime.ip dhcp_arp_client)
    by reflexivity.
  split; [exact Hl1|]. split; [exact Hl2|]. split; [exact Hip|].
  pose proof (Add_overwrites (NewRuntimeIndex same_address) _ _ _ _
                Hl1 Hl2 Hip) as Hadd.
  cbn [Runtime.ip dhcp_arp_client NewRuntimeIndex RuntimeIndex.records
       RuntimeIndex.index] in Hadd.
  destruct Hadd as (Hadd & Hclient & _ & _).
  intros σ'. split; [exact Hadd|exact Hclient].
Defined.

Lemma Unset_after_update_witness :
  ({[ 1%positive := fresh_client ]} : heap string) !! 1%positive
    = Some fresh_client ∧
  SourceDHCP
    ∈ [SourceWHOIS; SourceARP; SourceRDNS; SourceDHCP; SourceHostsFile] ∧
  (_ ← Runtime.SetInfo (Some 1%positive) SourceDHCP (Some ["host.example"]);
   Runtime.Unset (Some 1%positive) SourceDHCP) {[ 1%positive := fresh_client ]}
    = Returned (tt, <[ 1%positive := cleared SourceDHCP fresh_client ]>
                      {[ 1%positive := fresh_client ]}) ∧
  Runtime.IsEmpty (Some 1%positive)
      (<[ 1%positive := cleared SourceDHCP fresh_client ]>
         {[ 1%positive := fresh_client ]})
    = Returned (true, <[ 1%positive := cleared SourceDHCP fresh_client ]>
                        {[ 1%positive := fresh_client ]}).
Proof.
  assert (Hl : ({[ 1%positive := fresh_client ]} : heap string) !! 1%positive
               = Some fresh_client) by reflexivity.
  assert (Hcs : SourceDHCP
    ∈ [SourceWHOIS; SourceARP; SourceRDNS; SourceDHCP; SourceHostsFile]).
  { do 3 right. left. }
  split; [exact Hl|]. split; [exact Hcs|].
  destruct (Unset_after_update _ _ _ _ (Some ["host.example"]) None Hl Hcs)
    as (Hrun & _ & _ & _ & Hempty).
  split; [exact Hrun|]. apply Hempty. intros cs' _.
  unfold present, fresh_client. simpl.
  destruct cs' as [|p]; [reflexivity|].
  do 3 (try destruct p as [p|p|]); reflexivity.
Defined.

Lemma unsupported_source_ignored_witness :
  ({[ 1%positive := dhcp_arp_client ]} : heap string) !! 1%positive
    = Some dhcp_arp_client ∧
  (SourcePersistent
     ∉ [SourceWHOIS; SourceARP; SourceRDNS; SourceDHCP; SourceHostsFile]) ∧
  Runtime.SetInfo (Some 1%positive) SourceWHOIS (Some ["name"])
      {[ 1%positive := dhcp_arp_client ]}
    = Returned (tt, {[ 1%positive := dhcp_arp_client ]}) ∧
  Runtime.Unset (Some 1%positive) SourcePersistent
      {[ 1%positive := dhcp_arp_client ]}
    = Returned (tt, {[ 1%positive := dhcp_arp_client ]}).
Proof.
  assert (Hl : ({[ 1%positive := dhcp_arp_client ]} : heap string) !! 1%positive
               = Some dhcp_arp_client) by reflexivity.
  assert (Hcs : SourcePersistent
    ∉ [SourceWHOIS; SourceARP; SourceRDNS; SourceDHCP; SourceHostsFile]).
  { rewrite !not_elem_of_cons. repeat split; try discriminate.
    apply not_elem_of_nil. }
  split; [exact Hl|]. split; [exact Hcs|].
  destruct (unsupported_source_ignored _ _ _ SourcePersistent
              (Some ["name"]) Hl) as (_ & Hunset & Hwhois & _).
  split; [exact Hwhois|]. exact (Hunset Hcs).
Defined.

Lemma SetWHOIS_nil_is_Unset_witness :
  ({[ 1%positive := whois_client ]} : heap string) !! 1%positive
    = Some whois_client ∧
  Runtime.SetWHOIS (Some 1%positive) None {[ 1%positive := whois_client ]}
    = Runtime.Unset (Some 1%positive) SourceWHOIS
        {[ 1%positive := whois_client ]} ∧
  Runtime.IsEmpty (Some 1%positive)
      (<[ 1%positive := cleared SourceWHOIS whois_client ]>
         {[ 1%positive := whois_client ]})
    = Returned (true, <[ 1%positive := cleared SourceWHOIS whois_client ]>
                        {[ 1%positive := whois_client ]}).
Proof.
  assert (Hl : ({[ 1%positive := whois_client ]} : heap string) !! 1%positive
               = Some whois_client) by reflexivity.
  split; [exact Hl|].
  destruct (SetWHOIS_nil_is_Unset _ _ _ Hl) as (Hset & Hunset & _ & Hempty).
  split; [by rewrite Hset, Hunset|]. by apply Hempty.
Defined.

Lemma Addr_never_reassigned_witness :
  two_clients !! 1%positive = Some arp_client ∧
  ∃ h',
    run_ops [(Some 1%positive, OpSetInfo SourceDHCP (Some ["x"]));
             (Some 2%positive, OpUnset SourceARP);
             (Some 1%positive, OpSetWHOIS (Some "Example Org"));
             (Some 1%positive, OpInfo)] two_clients = Returned (tt, h') ∧
    Runtime.Addr (Some 1%positive) h' = Returned (addr1, h').
Proof.
  assert (Hl : two_clients !! 1%positive = Some arp_client) by reflexivity.
  split; [exact Hl|].
  refine (proj2 (Addr_never_reassigned two_clients _ _ _ _ Hl)).
  intros r o Hin. rewrite !elem_of_cons, elem_of_nil in Hin.
  destruct Hin as [Heq|[Heq|[Heq|[Heq|[]]]]]; injection Heq as -> _.
  - exists 1%positive. split; [reflexivity|]. by exists arp_client.
  - exists 2%positive. split; [reflexivity|]. by exists arp_dhcp_client.
  - exists 1%positive. split; [reflexivity|]. by exists arp_client.
  - exists 1%positive. split; [reflexivity|]. by exists arp_client.
Defined.

(** C7 as the specification has it does not hold: the zero address is no
    valid address, and [NewRuntime] returns a record for it. *)
Lemma NewRuntime_accepts_invalid_address :
  netip.IsValid netip.Zero = false ∧
  NewRuntime netip.Zero (∅ : heap string)
    = Returned (Some 1%positive,
                {[ 1%positive := Runtime.mk netip.Zero None None None None None ]}) ∧
  ¬ (∀ (a : netip.Addr) (h : heap string),
       netip.IsValid a = false → fails (NewRuntime a h) = true).
Proof.
  split; [reflexivity|]. split; [by vm_compute|].
  intros Hall. specialize (Hall netip.Zero ∅ eq_refl).
  vm_compute in Hall. discriminate.
Qed.

Lemma NewRuntime_total_witness :
  ∃ l,
    NewRuntime addr1 (∅ : heap string)
      = Returned (Some l, <[ l := fresh_client ]> ∅) ∧
    returns (run_op (Some l) (OpSetInfo SourceARP (Some ["other"]))
               (<[ l := fresh_client ]> ∅)) = true.
Proof.
  destruct (NewRuntime_total (∅ : heap string) addr1)
    as (l & _ & Hnew & _ & _ & _ & _ & Hops).
  exists l. split; [exact Hnew|].
  apply Hops. exists fresh_client. apply lookup_insert_eq.
Defined.

(** * Further properties *)

(** ** [Source] *)

(** X21.  The five display names are pairwise distinct: a name that is not empty
    determines its source.  Every other value has the empty name. *)
Theorem Source_String_inj (cs1 cs2 : Source) :
  Source.String cs1 = Source.String cs2 →
  Source.String cs1 ≠ "" →
  cs1 = cs2 ∧
  cs1 ∈ [SourceWHOIS; SourceARP; SourceRDNS; SourceDHCP; SourceHostsFile].
Proof.
  unfold Source.String. intros Heq Hne.
  repeat case_decide; subst; try done; try discriminate;
    (split; [done|]); rewrite !elem_of_cons; tauto.
Qed.

(** ** [Runtime] *)

Section MoreRuntimeProperties.
Context {whois_Info : Type}.
Implicit Types (h : heap whois_Info) (v : Runtime.t whois_Info).
Implicit Types (l : loc) (r : ptr) (cs : Source) (hosts : slice).

Lemma load_dead h r : r ≫= (h !!.) = None → Runtime.load r h = Panicked.
Proof. intros Hr. unfold Runtime.load. by rewrite Hr. Qed.

Lemma store_dead h r f : r ≫= (h !!.) = None → Runtime.store r f h = Panicked.
Proof.
  intros Hr. unfold Runtime.store. destruct r as [l|]; [|done].
  simpl in Hr. by rewrite Hr.
Qed.

(** The result of [Info], slot by slot. *)
Lemma Info_cases h l v :
  h !! l = Some v →
  Runtime.Info (Some l) h =
    Returned
      (match Runtime.hostsFile v, Runtime.dhcp v, Runtime.rdns v,
             Runtime.arp v, Runtime.whois v with
       | Some hosts, _, _, _, _ => (SourceHostsFile, default "" (head hosts))
       | None, Some hosts, _, _, _ => (SourceDHCP, default "" (head hosts))
       | None, None, Some hosts, _, _ => (SourceRDNS, default "" (head hosts))
       | None, None, None, Some hosts, _ => (SourceARP, default "" (head hosts))
       | None, None, None, None, Some _ => (SourceWHOIS, "")
       | None, None, None, None, None => (0%N, "")
       end, h).
Proof.
  intros Hl. unfold Runtime.Info.
  rewrite (bind_returned _ _ _ _ _ (load_live _ _ _ Hl)).
  by destruct (Runtime.hostsFile v) as [[|? ?]|], (Runtime.dhcp v) as [[|? ?]|],
    (Runtime.rdns v) as [[|? ?]|], (Runtime.arp v) as [[|? ?]|],
    (Runtime.whois v) as [?|].
Qed.

Lemma WHOIS_live h l v :
  h !! l = Some v →
  Runtime.WHOIS (Some l) h = Returned (Runtime.whois v, h).
Proof.
  intros Hl. unfold Runtime.WHOIS.
  by rewrite (bind_returned _ _ _ _ _ (load_live _ _ _ Hl)).
Qed.

(** X10.  [WHOIS] returns what the last [SetWHOIS] stored, and [SetWHOIS] changes
    no other field of the record. *)
Theorem SetWHOIS_then_WHOIS h l v (info : option whois_Info) :
  h !! l = Some v →
  ∃ v',
    (_ ← Runtime.SetWHOIS (Some l) info; Runtime.WHOIS (Some l)) h
      = Returned (info, <[l := v']> h) ∧
    Runtime.whois v' = info ∧
    Runtime.ip v' = Runtime.ip v ∧
    Runtime.arp v' = Runtime.arp v ∧
    Runtime.rdns v' = Runtime.rdns v ∧
    Runtime.dhcp v' = Runtime.dhcp v ∧
    Runtime.hostsFile v' = Runtime.hostsFile v.
Proof.
  intros Hl. exists (Runtime.set_whois info v). split; [|done].
  unfold Runtime.SetWHOIS.
  rewrite (bind_returned _ _ _ _ _ (store_live _ _ _ _ Hl)).
  by rewrite (WHOIS_live _ l (Runtime.set_whois info v))
    by apply lookup_insert_eq.
Qed.

(** X11.  WHOIS information never supplies a name and never outranks a list:
    [SetWHOIS] leaves the name [Info] returns as it was, and the source too
    when a list-valued source had won; otherwise the name is empty and the
    source becomes WHOIS, or zero when the information stored is nil. *)
Theorem SetWHOIS_keeps_name h l v (info : option whois_Info) cs host :
  h !! l = Some v →
  Runtime.Info (Some l) h = Returned ((cs, host), h) →
  ∃ h' cs',
    (_ ← Runtime.SetWHOIS (Some l) info; Runtime.Info (Some l)) h
      = Returned ((cs', host), h') ∧
    ((SourceWHOIS < cs)%N → cs' = cs) ∧
    ((cs ≤ SourceWHOIS)%N →
     host = "" ∧ cs' = if is_nil info then 0%N else SourceWHOIS).
Proof.
  intros Hl Hinfo. rewrite (Info_cases _ _ _ Hl) in Hinfo.
  unfold Runtime.SetWHOIS.
  rewrite (bind_returned _ _ _ _ _ (store_live _ _ _ _ Hl)).
  rewrite (Info_cases _ l (Runtime.set_whois info v))
    by apply lookup_insert_eq.
  destruct v as [a w ar rd dh hf]; simpl in *.
  destruct hf, dh, rd, ar, w, info; simpl in *;
    injection Hinfo as <- <-; eexists _, _; (split; [reflexivity|]);
    split; first [done | by intros []].
Qed.

(** X12.  After [SetInfo] with a slice that is not nil the source is present:
    [Info] returns that source or one of higher priority, and when no
    higher one holds data it returns that source with the first of the names
    given, the empty string if there is none. *)
Theorem SetInfo_then_Info h l v cs hosts :
  h !! l = Some v →
  cs ∈ [SourceARP; SourceRDNS; SourceDHCP; SourceHostsFile] →
  hosts ≠ None →
  ∃ h' cs' host,
    (_ ← Runtime.SetInfo (Some l) cs hosts; Runtime.Info (Some l)) h
      = Returned ((cs', host), h') ∧
    (cs ≤ cs')%N ∧
    ((∀ cs'', (cs < cs'')%N → present cs'' v = false) →
     cs' = cs ∧ host = default "" (hosts ≫= head)).
Proof.
  intros Hl Hcs Hhosts.
  rewrite (bind_returned _ _ _ _ _ (SetInfo_live _ _ _ _ _ Hl)).
  set (x := if decide (hosts = Some [""]) then Some [] else hosts).
  assert (Hx : ∃ names, x = Some names ∧
                        default "" (head names) = default "" (hosts ≫= head)).
  { subst x. case_decide as Hd; [subst; by eexists|].
    destruct hosts as [names|]; [by eexists|done]. }
  destruct Hx as (names & -> & <-).
  rewrite (Info_cases _ l (updated cs (Some names) v))
    by apply lookup_insert_eq.
  apply list_sources_inv in Hcs.
  destruct v as [a w ar rd dh hf].
  destruct Hcs as [-> | [-> | [-> | -> ]]]; simpl.
  - destruct hf as [hf|], dh as [dh|], rd as [rd|];
      eexists _, _, _; (split; [reflexivity|]); (split; [done|]);
      intros Hhigher;
      first [ done
            | by pose proof (Hhigher SourceHostsFile eq_refl)
            | by pose proof (Hhigher SourceDHCP eq_refl)
            | by pose proof (Hhigher SourceRDNS eq_refl) ].
  - destruct hf as [hf|], dh as [dh|];
      eexists _, _, _; (split; [reflexivity|]); (split; [done|]);
      intros Hhigher;
      first [ done
            | by pose proof (Hhigher SourceHostsFile eq_refl)
            | by pose proof (Hhigher SourceDHCP eq_refl) ].
  - destruct hf as [hf|];
      eexists _, _, _; (split; [reflexivity|]); (split; [done|]);
      intros Hhigher;
      first [ done | by pose proof (Hhigher SourceHostsFile eq_refl) ].
  - eexists _, _, _. by split; [reflexivity|].
Qed.

Lemma updated_updated cs x y v :
  updated cs y (updated cs x v) = updated cs y v.
Proof. unfold updated. simpl. by repeat case_decide. Qed.

Lemma updated_comm cs1 cs2 x y v :
  cs1 ≠ cs2 →
  updated cs2 y (updated cs1 x v) = updated cs1 x (updated cs2 y v).
Proof.
  intros Hne. unfold updated. simpl.
  repeat case_decide; subst; done.
Qed.

Lemma updated_cleared_comm cs1 cs2 x v :
  cs1 ≠ cs2 →
  cleared cs2 (updated cs1 x v) = updated cs1 x (cleared cs2 v).
Proof.
  intros Hne. unfold updated, cleared. simpl.
  repeat case_decide; subst; done.
Qed.

Lemma cleared_comm cs1 cs2 v :
  cleared cs2 (cleared cs1 v) = cleared cs1 (cleared cs2 v).
Proof. unfold cleared. simpl. by repeat case_decide. Qed.

Lemma SetInfo_after h l v cs hosts :
  Runtime.SetInfo (Some l) cs hosts (<[l := v]> h) =
    Returned (tt, <[l := updated cs (if decide (hosts = Some [""]) then Some []
                                     else hosts) v]> h).
Proof.
  rewrite (SetInfo_live _ l v) by apply lookup_insert_eq.
  by rewrite insert_insert_eq.
Qed.

Lemma Unset_after h l v cs :
  Runtime.Unset (Some l) cs (<[l := v]> h)
  = Returned (tt, <[l := cleared cs v]> h).
Proof.
  rewrite (Unset_live _ l v) by apply lookup_insert_eq.
  by rewrite insert_insert_eq.
Qed.

Lemma SetWHOIS_after h l v (info : option whois_Info) :
  Runtime.SetWHOIS (Some l) info (<[l := v]> h)
  = Returned (tt, <[l := Runtime.set_whois info v]> h).
Proof.
  unfold Runtime.SetWHOIS.
  rewrite (store_live _ l v) by apply lookup_insert_eq.
  by rewrite insert_insert_eq.
Qed.

(** X15.  The slots are independent and the last write wins: a second [SetInfo]
    of one source replaces the first, and [SetInfo], [Unset] and [SetWHOIS]
    of different sources give the same record in either order. *)
Theorem slots_independent h l v cs1 cs2 hosts1 hosts2 (info : option whois_Info) :
  h !! l = Some v →
  (_ ← Runtime.SetInfo (Some l) cs1 hosts1;
   Runtime.SetInfo (Some l) cs1 hosts2) h
    = Runtime.SetInfo (Some l) cs1 hosts2 h ∧
  (_ ← Runtime.SetInfo (Some l) cs1 hosts1;
   Runtime.SetWHOIS (Some l) info) h
    = (_ ← Runtime.SetWHOIS (Some l) info;
       Runtime.SetInfo (Some l) cs1 hosts1) h ∧
  (_ ← Runtime.Unset (Some l) cs1; Runtime.Unset (Some l) cs2) h
    = (_ ← Runtime.Unset (Some l) cs2; Runtime.Unset (Some l) cs1) h ∧
  (cs1 ≠ cs2 →
   (_ ← Runtime.SetInfo (Some l) cs1 hosts1;
    Runtime.SetInfo (Some l) cs2 hosts2) h
     = (_ ← Runtime.SetInfo (Some l) cs2 hosts2;
        Runtime.SetInfo (Some l) cs1 hosts1) h ∧
   (_ ← Runtime.SetInfo (Some l) cs1 hosts1; Runtime.Unset (Some l) cs2) h
     = (_ ← Runtime.Unset (Some l) cs2;
        Runtime.SetInfo (Some l) cs1 hosts1) h).
Proof.
  intros Hl.
  assert (Hset : ∀ cs hosts (k : go (heap whois_Info) unit),
    (_ ← Runtime.SetInfo (Some l) cs hosts; k) h
    = k (<[l := updated cs (if decide (hosts = Some [""]) then Some []
                            else hosts) v]> h)).
  { intros cs hosts k.
    by rewrite (bind_returned _ _ _ _ _ (SetInfo_live _ _ _ _ _ Hl)). }
  assert (Hunset : ∀ cs (k : go (heap whois_Info) unit),
    (_ ← Runtime.Unset (Some l) cs; k) h = k (<[l := cleared cs v]> h)).
  { intros cs k.
    by rewrite (bind_returned _ _ _ _ _ (Unset_live _ _ _ _ Hl)). }
  assert (Hwhois : ∀ (k : go (heap whois_Info) unit),
    (_ ← Runtime.SetWHOIS (Some l) info; k) h
    = k (<[l := Runtime.set_whois info v]> h)).
  { intros k. unfold Runtime.SetWHOIS.
    by rewrite (bind_returned _ _ _ _ _ (store_live _ _ _ _ Hl)). }
  rewrite !Hset, !Hunset, Hwhois.
  rewrite !SetInfo_after, !Unset_after, SetWHOIS_after.
  rewrite (SetInfo_live _ _ _ _ _ Hl).
  split; [by rewrite updated_updated|].
  split; [done|].
  split; [by rewrite cleared_comm|].
  intros Hne. split.
  - by rewrite (updated_comm cs1 cs2).
  - by rewrite updated_cleared_comm.
Qed.

(** X16.  [SetInfo] with the nil slice does what [Unset] does: the slot is absent
    afterwards. *)
Theorem SetInfo_nil_is_Unset h l v cs :
  h !! l = Some v →
  cs ∈ [SourceARP; SourceRDNS; SourceDHCP; SourceHostsFile] →
  ∃ h',
    Runtime.SetInfo (Some l) cs None h = Returned (tt, h') ∧
    Runtime.Unset (Some l) cs h = Returned (tt, h') ∧
    ∃ v', h' !! l = Some v' ∧ present cs v' = false.
Proof.
  intros Hl Hcs. exists (<[l := cleared cs v]> h).
  split; [by apply SetInfo_nil|]. split; [by apply Unset_live|].
  exists (cleared cs v). split; [by apply lookup_insert_eq|].
  apply list_sources_inv in Hcs.
  by destruct Hcs as [-> | [-> | [-> | -> ]]].
Qed.

(** X17.  [IsEmpty] is true exactly when [Info] finds no source and returns the
    zero value. *)
Theorem IsEmpty_iff_Info_zero h l v :
  h !! l = Some v →
  ∃ e cs host,
    Runtime.IsEmpty (Some l) h = Returned (e, h) ∧
    Runtime.Info (Some l) h = Returned ((cs, host), h) ∧
    (e = true ↔ cs = 0%N).
Proof.
  intros Hl. rewrite (IsEmpty_live _ _ _ Hl), (Info_cases _ _ _ Hl).
  destruct v as [a w ar rd dh hf]. unfold empty, present. cbn [forallb].
  unfold SourceWHOIS, SourceARP, SourceRDNS, SourceDHCP, SourceHostsFile.
  simpl.
  destruct hf, dh, rd, ar, w; simpl; eexists _, _, _;
    (split; [reflexivity|]); (split; [reflexivity|]); done.
Qed.

(** X18.  An operation on one record leaves every other record of the store as it
    was, and [Info], [WHOIS] and [IsEmpty] leave the whole store as it
    was. *)
Theorem run_op_frame h l0 v0 (o : op whois_Info) :
  h !! l0 = Some v0 →
  ∃ h',
    run_op (Some l0) o h = Returned (tt, h') ∧
    (∀ l, l ≠ l0 → h' !! l = h !! l) ∧
    match o with
    | OpInfo | OpWHOIS | OpIsEmpty => h' = h
    | _ => True
    end.
Proof.
  intros Hl0. destruct o as [cs hosts|info|cs| | |]; cbn [run_op].
  - rewrite (SetInfo_live _ _ _ _ _ Hl0). eexists. split; [done|].
    split; [|done]. intros l Hne. by rewrite lookup_insert_ne.
  - unfold Runtime.SetWHOIS. rewrite (store_live _ _ _ _ Hl0).
    eexists. split; [done|]. split; [|done].
    intros l Hne. by rewrite lookup_insert_ne.
  - rewrite (Unset_live _ _ _ _ Hl0). eexists. split; [done|].
    split; [|done]. intros l Hne. by rewrite lookup_insert_ne.
  - rewrite (bind_returned _ _ _ _ _ (Info_cases _ _ _ Hl0)). by exists h.
  - rewrite (bind_returned _ _ _ _ _ (WHOIS_live _ _ _ Hl0)). by exists h.
  - rewrite (bind_returned _ _ _ _ _ (IsEmpty_live _ _ _ Hl0)). by exists h.
Qed.

(** X19.  A method that reads or writes a field through a nil pointer panics.
    [SetInfo] and [Unset] touch the record only for the sources they
    handle, so on nil they panic for exactly those. *)
Theorem nil_receiver_panics h cs hosts (info : option whois_Info) :
  Runtime.Info None h = Panicked ∧
  Runtime.WHOIS None h = Panicked ∧
  Runtime.SetWHOIS None info h = Panicked ∧
  Runtime.IsEmpty None h = Panicked ∧
  Runtime.Addr None h = Panicked ∧
  (Runtime.SetInfo None cs hosts h = Panicked ↔
   cs ∈ [SourceARP; SourceRDNS; SourceDHCP; SourceHostsFile]) ∧
  (Runtime.Unset None cs h = Panicked ↔
   cs ∈ [SourceWHOIS; SourceARP; SourceRDNS; SourceDHCP; SourceHostsFile]).
Proof.
  do 5 (split; [done|]). rewrite !elem_of_cons, elem_of_nil. split.
  - unfold Runtime.SetInfo.
    assert (Hhosts : ∃ x,
      (if decide (len hosts = 1%nat) then
         h0 ← at_index hosts 0;
         mret (if decide (h0 = "") then Some [] else hosts)
       else mret hosts) h = Returned (x, h)).
    { destruct hosts as [[|s [|s' hosts]]|]; by eexists. }
    destruct Hhosts as [x Hx]. rewrite (bind_returned _ _ _ _ _ Hx).
    repeat case_decide; subst; split; try done; try tauto; intros _; tauto.
  - unfold Runtime.Unset.
    repeat case_decide; subst; split; try done; try tauto; intros _; tauto.
Qed.

(** X20.  [NewRuntime] makes a new record each time: two constructions, be it
    with one address, return different pointers, neither of a record that
    existed, and the records that existed are as they were. *)
Theorem NewRuntime_distinct h (a b : netip.Addr) :
  ∃ l1 l2 h',
    (r1 ← NewRuntime a; r2 ← NewRuntime b; mret (r1, r2)) h
      = Returned ((Some l1, Some l2), h') ∧
    l1 ≠ l2 ∧ h !! l1 = None ∧ h !! l2 = None ∧
    Runtime.Addr (Some l1) h' = Returned (a, h') ∧
    Runtime.Addr (Some l2) h' = Returned (b, h') ∧
    (∀ l v, h !! l = Some v → h' !! l = Some v).
Proof.
  destruct (NewRuntime_fresh h a) as (l1 & Hl1 & Hnew1).
  destruct (NewRuntime_fresh
              (<[l1 := Runtime.mk a None None None None None]> h) b)
    as (l2 & Hl2 & Hnew2).
  apply lookup_insert_None in Hl2 as [Hl2 Hne].
  eexists l1, l2, _. split.
  { rewrite (bind_returned _ _ _ _ _ Hnew1).
    by rewrite (bind_returned _ _ _ _ _ Hnew2). }
  set (h' := <[l2 := _]> _).
  assert (Hl1' : h' !! l1 = Some (Runtime.mk a None None None None None)).
  { subst h'. rewrite lookup_insert_ne by done. apply lookup_insert_eq. }
  assert (Hl2' : h' !! l2 = Some (Runtime.mk b None None None None None))
    by apply lookup_insert_eq.
  do 3 (split; [done|]). unfold Runtime.Addr. split; [|split].
  - by rewrite (bind_returned _ _ _ _ _ (load_live _ _ _ Hl1')).
  - by rewrite (bind_returned _ _ _ _ _ (load_live _ _ _ Hl2')).
  - intros l v Hl. subst h'. rewrite !lookup_insert_ne; [done|congruence..].
Qed.

End MoreRuntimeProperties.

(** ** [RuntimeIndex] *)

Section MoreRuntimeIndexProperties.
Context {whois_Info : Type}.
Implicit Types (σ : RuntimeIndex.state whois_Info) (v : Runtime.t whois_Info).
Implicit Types (l : loc) (ip : netip.Addr) (src cs : Source).

Import RuntimeIndex.

Lemma state_eq σ1 σ2 :
  records σ1 = records σ2 → index σ1 = index σ2 → σ1 = σ2.
Proof. destruct σ1, σ2. simpl. by intros -> ->. Qed.

Lemma on_records_inv {A} (m : go (heap whois_Info) A) σ a σ' :
  on_records m σ = Returned (a, σ') →
  ∃ h', m (records σ) = Returned (a, h') ∧ σ' = State h' (index σ).
Proof.
  unfold on_records. destruct (m (records σ)) as [[a' h']|]; [|done].
  intros [= <- <-]. eauto.
Qed.

Lemma Size_eq σ : Size σ = Returned (size (index σ), σ).
Proof. done. Qed.

(** X3.  [Delete] removes the entry of the address and nothing else: [Client]
    no longer finds the address, the entries of other addresses and all
    records are as before, and [Size] is one less when the address was
    present.  Deleting a missing address changes nothing. *)
Theorem Delete_removes σ ip :
  ∃ σ',
    Delete ip σ = Returned (tt, σ') ∧
    records σ' = records σ ∧
    Client ip σ' = Returned ((None, false), σ') ∧
    (∀ ip', ip' ≠ ip → index σ' !! ip' = index σ !! ip') ∧
    Size σ' = Returned (match index σ !! ip with
                        | Some _ => pred (size (index σ))
                        | None => size (index σ)
                        end, σ') ∧
    (index σ !! ip = None → σ' = σ).
Proof.
  exists (State (records σ) (delete ip (index σ))).
  split; [done|]. split; [done|]. split; [|split; [|split]].
  - rewrite Client_lookup. simpl. by rewrite lookup_delete_eq.
  - intros ip' Hne. simpl. by rewrite lookup_delete_ne.
  - rewrite Size_eq. simpl. rewrite map_size_delete.
    by destruct (index σ !! ip).
  - intros Hnone. apply state_eq; [done|]. simpl. by apply delete_id.
Qed.

(** X4.  [Client] finds what [Add] stored: after [Add] of a record, [Client] at
    the address of the record returns the pointer with [true].  The records
    are untouched, and [Size] grows by one exactly when the address was not
    in the registry. *)
Theorem Add_then_Client σ l v :
  records σ !! l = Some v →
  ∃ σ',
    Add (Some l) σ = Returned (tt, σ') ∧
    records σ' = records σ ∧
    Client (Runtime.ip v) σ' = Returned ((Some l, true), σ') ∧
    (∀ ip, ip ≠ Runtime.ip v → index σ' !! ip = index σ !! ip) ∧
    Size σ' = Returned (match index σ !! Runtime.ip v with
                        | Some _ => size (index σ)
                        | None => S (size (index σ))
                        end, σ').
Proof.
  intros Hl. eexists. split; [by apply Add_live|].
  split; [done|]. split; [|split].
  - rewrite Client_lookup. simpl. by rewrite lookup_insert_eq.
  - intros ip Hne. simpl. by rewrite lookup_insert_ne.
  - rewrite Size_eq. simpl. rewrite map_size_insert.
    by destruct (index σ !! Runtime.ip v).
Qed.

(** X5.  [Delete] undoes [Add]: adding a record whose address is not in the
    registry and deleting that address gives the state before. *)
Theorem Add_then_Delete σ l v :
  records σ !! l = Some v →
  index σ !! Runtime.ip v = None →
  (_ ← Add (Some l); Delete (Runtime.ip v)) σ = Returned (tt, σ).
Proof.
  intros Hl Hnone. rewrite (bind_returned _ _ _ _ _ (Add_live _ _ _ Hl)).
  unfold Delete. go_unfold. simpl. do 2 f_equal.
  apply state_eq; [done|]. simpl. by apply delete_insert_id.
Qed.

(** X6.  [Add] of the nil pointer panics, and so does any use of the nil pointer
    that [Client] returns for an address that is not in the registry. *)
Theorem Add_nil_panics σ ip :
  Add None σ = Panicked ∧
  (index σ !! ip = None →
   Client ip σ = Returned ((None, false), σ) ∧
   (r ← Client ip; on_records (Runtime.Info r.1)) σ = Panicked ∧
   (r ← Client ip; Add r.1) σ = Panicked).
Proof.
  split; [done|]. intros Hnone.
  assert (Hclient : Client ip σ = Returned ((None, false), σ)).
  { by rewrite Client_lookup, Hnone. }
  split; [done|]. by rewrite !(bind_returned _ _ _ _ _ Hclient).
Qed.

(** X1.  A callback that only observes, and always asks to go on, is called by
    [Range] once for every entry of the registry: the pointers it is given
    are the pointers of the map, each as often as the map holds it, and the
    state is left as it was. *)
Theorem Range_visits_all {U} σ order
    (cb : ptr → U → go (state whois_Info) (bool * U))
    (g : state whois_Info → ptr → U → U) (u : U) :
  order ≡ₚ keys σ →
  (∀ rc u' σ', cb rc u' σ' = Returned ((true, g σ' rc u'), σ')) →
  Range order cb u σ
    = Returned (foldl (λ u' rc, g σ rc u') u (entries order σ), σ) ∧
  entries order σ ≡ₚ (map_to_list (index σ)).*2.
Proof.
  intros Hperm Hcb. split.
  - clear Hperm. revert u. induction order as [|ip order IH]; intros u.
    { done. }
    cbn [Range]. unfold entries. cbn [omap list_omap].
    rewrite (bind_returned _ _ _ σ σ) by done.
    destruct (index σ !! ip) as [rc|]; [|apply IH].
    rewrite (bind_returned _ _ _ _ _ (Hcb rc u σ)). apply IH.
  - unfold entries. rewrite Hperm. unfold keys.
    assert (Hall : Forall (λ e, index σ !! e.1 = Some e.2)
                     (map_to_list (index σ))).
    { apply Forall_forall. intros [ip rc] Hin.
      by apply elem_of_map_to_list in Hin. }
    induction Hall as [|[ip rc] es Hhd _ IH]; [done|].
    cbn [fmap list_fmap omap list_omap]. rewrite Hhd. simpl.
    by rewrite IH.
Qed.


(** [DeleteBySrc] over an enumeration of the keys, entry by entry. *)
Lemma DeleteBySrc_entries σ order src :
  live σ →
  order ≡ₚ keys σ →
  ∃ n σ',
    DeleteBySrc order src σ = Returned (n, σ') ∧
    (∀ ip l v,
       index σ !! ip = Some (Some l) → records σ !! l = Some v →
       records σ' !! l = Some (cleared src v) ∧
       index σ' !! ip =
         if empty (cleared src v) then None else Some (Some l)) ∧
    (∀ ip, index σ !! ip = None → index σ' !! ip = None) ∧
    (∀ l, (∀ ip, index σ !! ip ≠ Some (Some l)) →
          records σ' !! l = records σ !! l) ∧
    n + size (index σ') = size (index σ).
Proof.
  intros Hlive Hperm.
  assert (Hnodup : NoDup order).
  { rewrite Hperm. apply NoDup_fst_map_to_list. }
  assert (Hin : ∀ ip, ip ∈ order ↔ is_Some (index σ !! ip)).
  { intros ip. rewrite Hperm. apply elem_of_keys. }
  destruct (range_index_DeleteBySrc src order Hnodup σ 0 Hlive)
    as (n & σ' & Hrun & Hon & Hoff & Hout & Hcount).
  { intros ip. apply Hin. }
  exists n, σ'. split; [done|]. split; [|split; [|split]].
  - intros ip l v Hip Hl. apply Hon; [|done..]. apply Hin. eauto.
  - intros ip Hnone. rewrite Hout; [done|].
    rewrite Hin, Hnone. by intros [? ?].
  - intros l Hnone. apply Hoff. intros ip _. apply Hnone.
  - done.
Qed.

(** Whether some entry of the registry leads to [l]. *)
Lemma referenced_dec σ l :
  (∃ ip, index σ !! ip = Some (Some l)) ∨
  (∀ ip, index σ !! ip ≠ Some (Some l)).
Proof.
  destruct (decide (Exists (λ ip, index σ !! ip = Some (Some l)) (keys σ)))
    as [Hex|Hnex].
  - left. apply Exists_exists in Hex as (ip & _ & Hip). eauto.
  - right. intros ip Hip. apply Hnex, Exists_exists. exists ip.
    split; [|done]. apply elem_of_keys. eauto.
Qed.

(** [DeleteBySrc] changes nothing when no record of the registry holds data
    from the source and none is empty. *)
Lemma DeleteBySrc_nothing_to_do σ order src :
  live σ →
  order ≡ₚ keys σ →
  (∀ ip l v,
     index σ !! ip = Some (Some l) → records σ !! l = Some v →
     cleared src v = v ∧ empty v = false) →
  DeleteBySrc order src σ = Returned (0%nat, σ).
Proof.
  intros Hlive Hperm Hclean.
  destruct (DeleteBySrc_entries σ order src Hlive Hperm)
    as (n & σ' & Hrun & Hon & Hgone & Hoff & Hcount).
  assert (Hindex : index σ' = index σ).
  { apply map_eq. intros ip. destruct (index σ !! ip) as [rc|] eqn:Hip.
    - destruct (Hlive ip rc Hip) as (l & -> & v & Hl).
      destruct (Hon ip l v Hip Hl) as [_ Hidx].
      destruct (Hclean ip l v Hip Hl) as [Hv He].
      by rewrite Hidx, Hv, He.
    - by apply Hgone. }
  assert (Hrecords : records σ' = records σ).
  { apply map_eq. intros l. destruct (referenced_dec σ l) as [[ip Hip]|Hno].
    - destruct (Hlive ip _ Hip) as (l' & [= <-] & v & Hl).
      destruct (Hon ip l v Hip Hl) as [Hrec _].
      destruct (Hclean ip l v Hip Hl) as [Hv _].
      by rewrite Hrec, Hv, Hl.
    - by apply Hoff. }
  rewrite Hindex in Hcount. assert (n = 0%nat) as -> by lia.
  rewrite Hrun. do 2 f_equal. by apply state_eq.
Qed.

(** The entries [DeleteBySrc] keeps: each was an entry before, and its
    record is the record of before with the slot cleared, and is not
    empty. *)
Lemma DeleteBySrc_kept σ order src :
  live σ →
  order ≡ₚ keys σ →
  ∃ n σ',
    DeleteBySrc order src σ = Returned (n, σ') ∧
    live σ' ∧
    ∀ ip l v',
      index σ' !! ip = Some (Some l) → records σ' !! l = Some v' →
      ∃ v, index σ !! ip = Some (Some l) ∧ records σ !! l = Some v ∧
           v' = cleared src v ∧ empty (cleared src v) = false.
Proof.
  intros Hlive Hperm.
  destruct (DeleteBySrc_entries σ order src Hlive Hperm)
    as (n & σ' & Hrun & Hon & Hgone & Hoff & Hcount).
  exists n, σ'. split; [done|]. split.
  - intros ip rc Hrc'. destruct (index σ !! ip) as [rc0|] eqn:Hip.
    + destruct (Hlive ip rc0 Hip) as (l & -> & v & Hl).
      destruct (Hon ip l v Hip Hl) as [Hrec Hidx].
      rewrite Hidx in Hrc'. destruct (empty (cleared src v)); [done|].
      injection Hrc' as <-. exists l. split; [done|]. by rewrite Hrec.
    + by rewrite (Hgone ip Hip) in Hrc'.
  - intros ip l v' Hip' Hl'. destruct (index σ !! ip) as [rc|] eqn:Hip.
    + destruct (Hlive ip rc Hip) as (l0 & -> & v & Hl).
      destruct (Hon ip l0 v Hip Hl) as [Hrec Hidx].
      rewrite Hidx in Hip'.
      destruct (empty (cleared src v)) eqn:He; [done|].
      injection Hip' as ->. rewrite Hrec in Hl'. injection Hl' as <-.
      by exists v.
    + by rewrite (Hgone ip Hip) in Hip'.
Qed.

(** X8.  [DeleteBySrc] is idempotent: a second call for the same source, in any
    order of enumeration, removes nothing, returns zero and leaves the state
    as the first call left it. *)
Theorem DeleteBySrc_twice σ order src :
  live σ →
  order ≡ₚ keys σ →
  ∃ n σ',
    DeleteBySrc order src σ = Returned (n, σ') ∧
    ∀ order', order' ≡ₚ keys σ' →
              DeleteBySrc order' src σ' = Returned (0%nat, σ').
Proof.
  intros Hlive Hperm.
  destruct (DeleteBySrc_kept σ order src Hlive Hperm)
    as (n & σ' & Hrun & Hlive' & Hkept).
  exists n, σ'. split; [done|]. intros order' Hperm'.
  apply DeleteBySrc_nothing_to_do; [done..|].
  intros ip l v' Hip' Hl'.
  destruct (Hkept ip l v' Hip' Hl') as (v & _ & _ & -> & He).
  by rewrite cleared_idemp.
Qed.

(** X9.  For a value that is none of the five sources [DeleteBySrc] changes no
    record and removes exactly the entries whose record is empty. *)
Theorem DeleteBySrc_unsupported σ order src :
  live σ →
  order ≡ₚ keys σ →
  src ∉ [SourceWHOIS; SourceARP; SourceRDNS; SourceDHCP; SourceHostsFile] →
  ∃ n σ',
    DeleteBySrc order src σ = Returned (n, σ') ∧
    records σ' = records σ ∧
    (∀ ip l v,
       index σ !! ip = Some (Some l) → records σ !! l = Some v →
       Client ip σ' =
         Returned (if empty v then (None, false) else (Some l, true), σ')) ∧
    (∀ ip, index σ !! ip = None →
           Client ip σ' = Returned ((None, false), σ')) ∧
    n + size (index σ') = size (index σ).
Proof.
  intros Hlive Hperm Hsrc.
  assert (Hid : ∀ v, cleared src v = v).
  { intros v. rewrite !not_elem_of_cons in Hsrc.
    destruct Hsrc as (? & ? & ? & ? & ? & _).
    unfold cleared. rewrite !decide_False by done. by destruct v. }
  destruct (DeleteBySrc_entries σ order src Hlive Hperm)
    as (n & σ' & Hrun & Hon & Hgone & Hoff & Hcount).
  exists n, σ'. split; [done|]. split; [|split; [|split]].
  - apply map_eq. intros l. destruct (referenced_dec σ l) as [[ip Hip]|Hno].
    + destruct (Hlive ip _ Hip) as (l' & [= <-] & v & Hl).
      destruct (Hon ip l v Hip Hl) as [Hrec _].
      by rewrite Hrec, Hid, Hl.
    + by apply Hoff.
  - intros ip l v Hip Hl. destruct (Hon ip l v Hip Hl) as [_ Hidx].
    rewrite Client_lookup, Hidx, Hid. by destruct (empty v).
  - intros ip Hnone. by rewrite Client_lookup, (Hgone ip Hnone).
  - done.
Qed.

Lemma bind_panicked {S A B} (m : go S A) (k : A → go S B) s :
  m s = Panicked → (m ≫= k) s = Panicked.
Proof. intros Hm. go_unfold. by rewrite Hm. Qed.

(** An operation through a pointer to no record panics or does nothing. *)
Lemma run_op_dead (h : heap whois_Info) r (o : op whois_Info) h' :
  r ≫= (h !!.) = None →
  run_op r o h = Returned (tt, h') → h' = h.
Proof.
  intros Hr. pose proof (store_dead h r) as Hstore.
  pose proof (load_dead h r Hr) as Hload.
  destruct o as [cs hosts|info|cs| | |]; cbn [run_op].
  - unfold Runtime.SetInfo.
    assert (Hhosts : ∃ x,
      (if decide (len hosts = 1%nat) then
         h0 ← at_index hosts 0;
         mret (if decide (h0 = "") then Some [] else hosts)
       else mret hosts) h = Returned (x, h)).
    { destruct hosts as [[|s [|s' hosts]]|]; by eexists. }
    destruct Hhosts as [x Hx]. rewrite (bind_returned _ _ _ _ _ Hx).
    repeat case_decide; rewrite ?Hstore by done; by intros [= <-].
  - unfold Runtime.SetWHOIS. by rewrite Hstore.
  - unfold Runtime.Unset.
    repeat case_decide; rewrite ?Hstore by done; by intros [= <-].
  - unfold Runtime.Info.
    by rewrite (bind_panicked _ _ _ (bind_panicked _ _ _ Hload)).
  - unfold Runtime.WHOIS.
    by rewrite (bind_panicked _ _ _ (bind_panicked _ _ _ Hload)).
  - unfold Runtime.IsEmpty.
    by rewrite (bind_panicked _ _ _ (bind_panicked _ _ _ Hload)).
Qed.

Lemma run_op_keeps_addr (h : heap whois_Info) r (o : op whois_Info) h' :
  run_op r o h = Returned (tt, h') →
  ∀ l v, h !! l = Some v →
         ∃ v', h' !! l = Some v' ∧ Runtime.ip v' = Runtime.ip v.
Proof.
  intros Hrun. destruct (r ≫= (h !!.)) as [v0|] eqn:Hr.
  - destruct r as [l0|]; [|done]. simpl in Hr.
    destruct (run_op_live h l0 v0 o Hr) as (h1 & Hrun1 & Hkeep).
    rewrite Hrun1 in Hrun. by injection Hrun as <-.
  - rewrite (run_op_dead _ _ _ _ Hr Hrun). eauto.
Qed.

(** Every call that returns keeps the registry well filed. *)
Lemma step_invariant σ σ' :
  step σ σ' → live σ ∧ keyed σ → live σ' ∧ keyed σ'.
Proof.
  intros Hstep [Hlive Hkeyed].
  destruct Hstep as [a r σ σ' Hnew|r o σ σ' Hop|rc σ σ' Hadd
                     |ip σ σ' Hdel|order src n σ σ' Hperm Hrun].
  - apply on_records_inv in Hnew as (h' & Hnew & ->).
    destruct (NewRuntime_fresh (records σ) a) as (l & Hfresh & Hnew').
    rewrite Hnew' in Hnew. injection Hnew as _ <-.
    assert (Hold : ∀ ip l', index σ !! ip = Some (Some l') →
      ∀ v', <[l := Runtime.mk a None None None None None]> (records σ) !! l'
              = Some v' → records σ !! l' = Some v').
    { intros ip l' Hip v'. destruct (Hlive ip _ Hip) as (? & [= <-] & v0 & Hl').
      rewrite lookup_insert_ne; [done|]. intros ->. congruence. }
    split.
    + intros ip rc Hrc. simpl in *.
      destruct (Hlive ip rc Hrc) as (l' & -> & v' & Hl').
      exists l'. split; [done|]. rewrite lookup_insert_ne; [by eauto|].
      intros ->. congruence.
    + intros ip l' v' Hip Hl'. simpl in *. eauto.
  - apply on_records_inv in Hop as (h' & Hop & ->).
    pose proof (run_op_keeps_addr _ _ _ _ Hop) as Hkeep. split.
    + intros ip rc Hrc. simpl in *.
      destruct (Hlive ip rc Hrc) as (l & -> & v & Hl).
      destruct (Hkeep l v Hl) as (v' & Hl' & _). eauto.
    + intros ip l v' Hip Hl'. simpl in *.
      destruct (Hlive ip _ Hip) as (? & [= <-] & v & Hl).
      destruct (Hkeep l v Hl) as (v'' & Hl'' & Hv'').
      rewrite Hl' in Hl''. injection Hl'' as <-. rewrite Hv''. eauto.
  - destruct (rc ≫= (records σ !!.)) as [v|] eqn:Hrc.
    + destruct rc as [l|]; [|done]. simpl in Hrc.
      rewrite (Add_live _ _ _ Hrc) in Hadd. injection Hadd as <-. split.
      * intros ip rc Hip. simpl in *. apply lookup_insert_Some in Hip.
        destruct Hip as [[_ <-]|[_ Hip]]; [by eauto|]. by apply (Hlive ip).
      * intros ip l' v' Hip Hl'. simpl in *. apply lookup_insert_Some in Hip.
        destruct Hip as [[<- [= <-]]|[_ Hip]]; [congruence|]. eauto.
    + assert (Hp : on_records (Runtime.Addr rc) σ = Panicked).
      { unfold on_records, Runtime.Addr.
        by rewrite (bind_panicked _ _ _ (load_dead _ _ Hrc)). }
      unfold Add in Hadd. by rewrite (bind_panicked _ _ _ Hp) in Hadd.
  - injection Hdel as <-. split.
    + intros ip' rc Hip. simpl in *. apply lookup_delete_Some in Hip as [_ Hip].
      by apply (Hlive ip').
    + intros ip' l v Hip Hl. simpl in *.
      apply lookup_delete_Some in Hip as [_ Hip]. eauto.
  - destruct (DeleteBySrc_kept σ order src Hlive Hperm)
      as (n' & σ'' & Hrun' & Hlive' & Hkept).
    rewrite Hrun' in Hrun. injection Hrun as _ <-. split; [done|].
    intros ip l v' Hip Hl'.
    destruct (Hkept ip l v' Hip Hl') as (v & Hip0 & Hl & -> & _).
    by apply (Hkeyed ip l v).
Qed.

(** X7.  In every state a program reaches from a new registry, each entry leads
    to a record and that record has the entry's address: [Client] returns
    nil with [false], or, with [true], a pointer to a record whose [Addr] is
    the address asked for. *)
Theorem reachable_well_filed σ :
  reachable σ →
  live σ ∧ keyed σ ∧
  ∀ ip rc ok,
    Client ip σ = Returned ((rc, ok), σ) →
    if ok then on_records (Runtime.Addr rc) σ = Returned (ip, σ)
    else rc = None.
Proof.
  intros Hreach.
  assert (Hinv : live σ ∧ keyed σ).
  { apply (rtc_ind_r (R := step) (λ σ0, live σ0 ∧ keyed σ0)
             (NewRuntimeIndex ∅));
      [|exact (λ σ1 σ2 _ Hstep IH, step_invariant σ1 σ2 Hstep IH)
       |exact Hreach].
    split; [apply live_NewRuntimeIndex|].
    intros ip l v Hip. simpl in Hip. by rewrite lookup_empty in Hip. }
  destruct Hinv as [Hlive Hkeyed]. do 2 (split; [done|]).
  intros ip rc ok. rewrite Client_lookup.
  destruct (index σ !! ip) as [rc0|] eqn:Hip; intros [= <- <-]; [|done].
  destruct (Hlive ip rc0 Hip) as (l & -> & v & Hl).
  unfold on_records, Runtime.Addr.
  rewrite (bind_returned _ _ _ _ _ (load_live _ _ _ Hl)).
  go_unfold. rewrite (Hkeyed ip l v Hip Hl). by destruct σ.
Qed.

End MoreRuntimeIndexProperties.

(** ** [Info] after a change *)

Section InfoAfterChange.
Context {whois_Info : Type}.
Implicit Types (h : heap whois_Info) (v : Runtime.t whois_Info).
Implicit Types (l : loc) (cs : Source) (hosts : slice).

(** X13.  Clearing the source that [Info] returned lets the next one through:
    [Info] then returns a source of lower priority that holds data, the
    highest of those, or the zero source when none is left. *)
Theorem Unset_winner_falls_back h l v cs host :
  h !! l = Some v →
  Runtime.Info (Some l) h = Returned ((cs, host), h) →
  ∃ h' cs' host',
    (_ ← Runtime.Unset (Some l) cs; Runtime.Info (Some l)) h
      = Returned ((cs', host'), h') ∧
    (cs ≠ 0%N → (cs' < cs)%N) ∧
    (cs' ≠ 0%N → present cs' v = true) ∧
    (∀ cs'', present cs'' v = true → cs'' ≠ cs → (cs'' ≤ cs')%N).
Proof.
  intros Hl Hinfo. rewrite (Info_cases _ _ _ Hl) in Hinfo.
  rewrite (bind_returned _ _ _ _ _ (Unset_live _ _ _ cs Hl)).
  rewrite (Info_cases _ l (cleared cs v)) by apply lookup_insert_eq.
  pose proof (present_inv (whois_Info := whois_Info)) as Hinv.
  destruct v as [a w ar rd dh hf]; simpl in *.
  destruct hf as [hf|], dh as [dh|], rd as [rd|], ar as [ar|], w as [w|];
    simpl in *; injection Hinfo as <- <-; simpl;
    (eexists _, _, _; split; [reflexivity|]);
    (split; [done|]); (split; [done|]);
    intros cs'' Hp Hne; apply Hinv in Hp; simpl in Hp;
    destruct Hp as [[-> ?]|[[-> ?]|[[-> ?]|[[-> ?]|[-> ?]]]]]; done.
Qed.

(** X14.  What is below the winner is not seen: [Unset] of any other source, and
    [SetInfo] of a source of lower priority, leave the result of [Info] as
    it was. *)
Theorem lower_priority_invisible h l v cs host cs0 hosts :
  h !! l = Some v →
  Runtime.Info (Some l) h = Returned ((cs, host), h) →
  (cs0 ≠ cs →
   ∃ h', (_ ← Runtime.Unset (Some l) cs0; Runtime.Info (Some l)) h
         = Returned ((cs, host), h')) ∧
  ((cs0 < cs)%N →
   ∃ h', (_ ← Runtime.SetInfo (Some l) cs0 hosts; Runtime.Info (Some l)) h
         = Returned ((cs, host), h')).
Proof.
  intros Hl Hinfo. rewrite (Info_cases _ _ _ Hl) in Hinfo. split.
  - intros Hne.
    rewrite (bind_returned _ _ _ _ _ (Unset_live _ _ _ cs0 Hl)).
    rewrite (Info_cases _ l (cleared cs0 v)) by apply lookup_insert_eq.
    exists (<[l := cleared cs0 v]> h). do 2 f_equal.
    unfold cleared, SourceWHOIS, SourceARP, SourceRDNS, SourceDHCP,
      SourceHostsFile in *.
    destruct v as [a w ar rd dh hf]; simpl in *.
    destruct hf as [hf|], dh as [dh|], rd as [rd|], ar as [ar|], w as [w|];
      simpl in *; injection Hinfo as <- <-;
      repeat case_decide; subst; simpl; done.
  - intros Hlt.
    rewrite (bind_returned _ _ _ _ _ (SetInfo_live _ _ _ cs0 hosts Hl)).
    set (x := if decide (hosts = Some [""]) then _ else _). clearbody x.
    rewrite (Info_cases _ l (updated cs0 x v)) by apply lookup_insert_eq.
    exists (<[l := updated cs0 x v]> h). do 2 f_equal.
    unfold updated, SourceWHOIS, SourceARP, SourceRDNS, SourceDHCP,
      SourceHostsFile in *.
    destruct v as [a w ar rd dh hf]; simpl in *.
    destruct hf as [hf|], dh as [dh|], rd as [rd|], ar as [ar|], w as [w|];
      simpl in *; injection Hinfo as <- <-;
      repeat case_decide; subst; simpl; first [done | by destruct x].
Qed.

End InfoAfterChange.

(** ** The further properties on the sample values *)

Lemma Source_String_inj_witness :
  Source.String SourceDHCP ≠ "" ∧
  SourceDHCP = 4%N ∧
  SourceDHCP ∈ [SourceWHOIS; SourceARP; SourceRDNS; SourceDHCP; SourceHostsFile].
Proof.
  assert (Hne : Source.String SourceDHCP ≠ "") by discriminate.
  split; [exact Hne|].
  exact (Source_String_inj SourceDHCP 4%N eq_refl Hne).
Defined.

Lemma SetWHOIS_then_WHOIS_witness :
  ({[ 1%positive := dhcp_arp_client ]} : heap string) !! 1%positive
    = Some dhcp_arp_client ∧
  ∃ h',
    (_ ← Runtime.SetWHOIS (Some 1%positive) (Some "Example Org");
     Runtime.WHOIS (Some 1%positive)) {[ 1%positive := dhcp_arp_client ]}
    = Returned (Some "Example Org", h').
Proof.
  assert (Hl : ({[ 1%positive := dhcp_arp_client ]} : heap string) !! 1%positive
               = Some dhcp_arp_client) by reflexivity.
  split; [exact Hl|].
  destruct (SetWHOIS_then_WHOIS _ _ _ (Some "Example Org") Hl)
    as (v' & Heq & _).
  eexists. exact Heq.
Defined.

Lemma SetWHOIS_keeps_name_witness :
  ({[ 1%positive := dhcp_arp_client ]} : heap string) !! 1%positive
    = Some dhcp_arp_client ∧
  Runtime.Info (Some 1%positive) {[ 1%positive := dhcp_arp_client ]}
    = Returned ((SourceDHCP, "host.example"),
                {[ 1%positive := dhcp_arp_client ]}) ∧
  ∃ h',
    (_ ← Runtime.SetWHOIS (Some 1%positive) (Some "Example Org");
     Runtime.Info (Some 1%positive)) {[ 1%positive := dhcp_arp_client ]}
    = Returned ((SourceDHCP, "host.example"), h').
Proof.
  assert (Hl : ({[ 1%positive := dhcp_arp_client ]} : heap string) !! 1%positive
               = Some dhcp_arp_client) by reflexivity.
  assert (Hinfo :
    Runtime.Info (Some 1%positive) {[ 1%positive := dhcp_arp_client ]}
    = Returned ((SourceDHCP, "host.example"),
                ({[ 1%positive := dhcp_arp_client ]} : heap string)))
    by reflexivity.
  split; [exact Hl|]. split; [exact Hinfo|].
  destruct (SetWHOIS_keeps_name _ _ _ (Some "Example Org") _ _ Hl Hinfo)
    as (h' & cs' & Heq & Hlist & _).
  rewrite (Hlist eq_refl) in Heq. eexists. exact Heq.
Defined.

Lemma SetInfo_then_Info_witness :
  ({[ 1%positive := arp_client ]} : heap string) !! 1%positive
    = Some arp_client ∧
  SourceDHCP ∈ [SourceARP; SourceRDNS; SourceDHCP; SourceHostsFile] ∧
  ∃ h',
    (_ ← Runtime.SetInfo (Some 1%positive) SourceDHCP (Some ["host.example"]);
     Runtime.Info (Some 1%positive)) {[ 1%positive := arp_client ]}
    = Returned ((SourceDHCP, "host.example"), h').
Proof.
  assert (Hl : ({[ 1%positive := arp_client ]} : heap string) !! 1%positive
               = Some arp_client) by reflexivity.
  assert (Hcs : SourceDHCP
                ∈ [SourceARP; SourceRDNS; SourceDHCP; SourceHostsFile]).
  { do 2 right. left. }
  split; [exact Hl|]. split; [exact Hcs|].
  destruct (SetInfo_then_Info _ _ _ _ (Some ["host.example"]) Hl Hcs)
    as (h' & cs' & host & Heq & _ & Hwins); [discriminate|].
  destruct Hwins as [-> ->].
  { intros cs'' Hlt. destruct (present cs'' arp_client) eqn:Hp; [|reflexivity].
    apply present_inv in Hp.
    destruct Hp as [[_ H]|[[-> _]|[[_ H]|[[_ H]|[_ H]]]]];
      first [discriminate Hlt | exfalso; apply H; reflexivity]. }
  eexists. exact Heq.
Defined.

Lemma slots_independent_witness :
  ({[ 1%positive := arp_client ]} : heap string) !! 1%positive
    = Some arp_client ∧
  (_ ← Runtime.SetInfo (Some 1%positive) SourceDHCP (Some ["first"]);
   Runtime.SetInfo (Some 1%positive) SourceDHCP (Some ["second"]))
     {[ 1%positive := arp_client ]}
  = Runtime.SetInfo (Some 1%positive) SourceDHCP (Some ["second"])
      {[ 1%positive := arp_client ]}.
Proof.
  assert (Hl : ({[ 1%positive := arp_client ]} : heap string) !! 1%positive
               = Some arp_client) by reflexivity.
  split; [exact Hl|].
  exact (proj1 (slots_independent _ _ _ SourceDHCP SourceARP (Some ["first"])
                  (Some ["second"]) None Hl)).
Defined.

Lemma SetInfo_nil_is_Unset_witness :
  ({[ 1%positive := dhcp_arp_client ]} : heap string) !! 1%positive
    = Some dhcp_arp_client ∧
  SourceDHCP ∈ [SourceARP; SourceRDNS; SourceDHCP; SourceHostsFile] ∧
  Runtime.SetInfo (Some 1%positive) SourceDHCP None
      {[ 1%positive := dhcp_arp_client ]}
    = Runtime.Unset (Some 1%positive) SourceDHCP
        {[ 1%positive := dhcp_arp_client ]}.
Proof.
  assert (Hl : ({[ 1%positive := dhcp_arp_client ]} : heap string) !! 1%positive
               = Some dhcp_arp_client) by reflexivity.
  assert (Hcs : SourceDHCP
                ∈ [SourceARP; SourceRDNS; SourceDHCP; SourceHostsFile]).
  { do 2 right. left. }
  split; [exact Hl|]. split; [exact Hcs|].
  destruct (SetInfo_nil_is_Unset _ _ _ _ Hl Hcs) as (h' & Hset & Hunset & _).
  rewrite Hunset. exact Hset.
Defined.

Lemma IsEmpty_iff_Info_zero_witness :
  ({[ 1%positive := fresh_client ]} : heap string) !! 1%positive
    = Some fresh_client ∧
  ∃ e cs host,
    Runtime.IsEmpty (Some 1%positive) {[ 1%positive := fresh_client ]}
      = Returned (e, {[ 1%positive := fresh_client ]}) ∧
    Runtime.Info (Some 1%positive) {[ 1%positive := fresh_client ]}
      = Returned ((cs, host), {[ 1%positive := fresh_client ]}) ∧
    (e = true ↔ cs = 0%N).
Proof.
  assert (Hl : ({[ 1%positive := fresh_client ]} : heap string) !! 1%positive
               = Some fresh_client) by reflexivity.
  split; [exact Hl|]. exact (IsEmpty_iff_Info_zero _ _ _ Hl).
Defined.

Lemma run_op_frame_witness :
  two_clients !! 1%positive = Some arp_client ∧
  ∃ h',
    run_op (Some 1%positive) (OpUnset SourceARP) two_clients
      = Returned (tt, h') ∧
    h' !! 2%positive = two_clients !! 2%positive.
Proof.
  assert (Hl : two_clients !! 1%positive = Some arp_client) by reflexivity.
  split; [exact Hl|].
  destruct (run_op_frame _ _ _ (OpUnset SourceARP) Hl)
    as (h' & Hrun & Hother & _).
  exists h'. split; [exact Hrun|]. apply Hother. discriminate.
Defined.

Lemma Add_then_Client_witness :
  same_address !! 1%positive = Some arp_client ∧
  ∃ σ',
    RuntimeIndex.Add (Some 1%positive) (NewRuntimeIndex same_address)
      = Returned (tt, σ') ∧
    RuntimeIndex.Client addr1 σ' = Returned ((Some 1%positive, true), σ') ∧
    RuntimeIndex.Size σ' = Returned (1%nat, σ').
Proof.
  assert (Hl : same_address !! 1%positive = Some arp_client) by reflexivity.
  split; [exact Hl|].
  destruct (Add_then_Client (NewRuntimeIndex same_address) _ _ Hl)
    as (σ' & Hadd & _ & Hclient & _ & Hsize).
  cbn [Runtime.ip arp_client NewRuntimeIndex RuntimeIndex.index] in *.
  rewrite lookup_empty, map_size_empty in Hsize.
  exists σ'. split; [exact Hadd|]. split; [exact Hclient|exact Hsize].
Defined.

Lemma Add_then_Delete_witness :
  same_address !! 1%positive = Some arp_client ∧
  (_ ← RuntimeIndex.Add (Some 1%positive); RuntimeIndex.Delete addr1)
    (NewRuntimeIndex same_address)
  = Returned (tt, NewRuntimeIndex same_address).
Proof.
  assert (Hl : same_address !! 1%positive = Some arp_client) by reflexivity.
  split; [exact Hl|].
  apply (Add_then_Delete (NewRuntimeIndex same_address) _ _ Hl).
  apply lookup_empty.
Defined.

Lemma Range_visits_all_witness :
  [addr2; addr1] ≡ₚ RuntimeIndex.keys two_indexed ∧
  RuntimeIndex.Range [addr2; addr1] record_all [] two_indexed
    = Returned ([Some 1%positive; Some 2%positive], two_indexed).
Proof.
  assert (Hperm : [addr2; addr1] ≡ₚ RuntimeIndex.keys two_indexed)
    by (vm_compute; apply perm_swap).
  split; [exact Hperm|].
  rewrite (proj1 (Range_visits_all two_indexed [addr2; addr1] record_all
                    (λ _ rc seen, rc :: seen) [] Hperm
                    (λ _ _ _, eq_refl))).
  vm_compute. reflexivity.
Defined.


Lemma DeleteBySrc_twice_witness :
  live two_indexed ∧
  [addr2; addr1] ≡ₚ RuntimeIndex.keys two_indexed ∧
  ∃ n σ',
    RuntimeIndex.DeleteBySrc [addr2; addr1] SourceARP two_indexed
      = Returned (n, σ') ∧
    RuntimeIndex.DeleteBySrc (RuntimeIndex.keys σ') SourceARP σ'
      = Returned (0%nat, σ').
Proof.
  assert (Hperm : [addr2; addr1] ≡ₚ RuntimeIndex.keys two_indexed)
    by (vm_compute; apply perm_swap).
  split; [exact live_two_indexed|]. split; [exact Hperm|].
  destruct (DeleteBySrc_twice two_indexed [addr2; addr1] SourceARP
              live_two_indexed Hperm) as (n & σ' & Hrun & Hagain).
  exists n, σ'. split; [exact Hrun|]. apply Hagain. reflexivity.
Defined.

Lemma live_one_empty_indexed : live one_empty_indexed.
Proof.
  intros ip rc Hrc. unfold one_empty_indexed, RuntimeIndex.index in Hrc.
  apply lookup_insert_Some in Hrc.
  destruct Hrc as [[<- <-]|[_ Hrc]].
  - exists 1%positive. split; [done|]. by exists fresh_client.
  - apply lookup_singleton_Some in Hrc as [<- <-].
    exists 2%positive. split; [done|]. by exists arp_dhcp_client.
Defined.

Lemma DeleteBySrc_unsupported_witness :
  live one_empty_indexed ∧
  [addr1; addr2] ≡ₚ RuntimeIndex.keys one_empty_indexed ∧
  (SourcePersistent
     ∉ [SourceWHOIS; SourceARP; SourceRDNS; SourceDHCP; SourceHostsFile]) ∧
  ∃ n σ',
    RuntimeIndex.DeleteBySrc [addr1; addr2] SourcePersistent one_empty_indexed
      = Returned (n, σ') ∧
    RuntimeIndex.records σ' = RuntimeIndex.records one_empty_indexed ∧
    RuntimeIndex.Client addr1 σ' = Returned ((None, false), σ') ∧
    RuntimeIndex.Client addr2 σ' = Returned ((Some 2%positive, true), σ').
Proof.
  assert (Hperm : [addr1; addr2] ≡ₚ RuntimeIndex.keys one_empty_indexed)
    by (vm_compute; reflexivity).
  assert (Hsrc : SourcePersistent
    ∉ [SourceWHOIS; SourceARP; SourceRDNS; SourceDHCP; SourceHostsFile]).
  { rewrite !not_elem_of_cons. repeat split; try discriminate.
    apply not_elem_of_nil. }
  split; [exact live_one_empty_indexed|]. split; [exact Hperm|].
  split; [exact Hsrc|].
  destruct (DeleteBySrc_unsupported one_empty_indexed [addr1; addr2]
              SourcePersistent live_one_empty_indexed Hperm Hsrc)
    as (n & σ' & Hrun & Hrecords & Hclient & _).
  exists n, σ'. split; [exact Hrun|]. split; [exact Hrecords|]. split.
  - apply (Hclient addr1 1%positive fresh_client); reflexivity.
  - apply (Hclient addr2 2%positive arp_dhcp_client); reflexivity.
Defined.

Lemma reachable_one_added : reachable one_added.
Proof.
  apply (rtc_l _ _ (RuntimeIndex.State {[ 1%positive := fresh_client ]} ∅)).
  { apply (step_NewRuntime addr1 (Some 1%positive)). vm_compute. reflexivity. }
  apply (rtc_l _ _ one_added); [|apply rtc_refl].
  apply (step_Add (Some 1%positive)). vm_compute. reflexivity.
Defined.

Lemma reachable_well_filed_witness :
  reachable one_added ∧
  RuntimeIndex.on_records (Runtime.Addr (Some 1%positive)) one_added
    = Returned (addr1, one_added).
Proof.
  split; [exact reachable_one_added|].
  destruct (reachable_well_filed one_added reachable_one_added)
    as (_ & _ & Hclient).
  apply (Hclient addr1 (Some 1%positive) true). vm_compute. reflexivity.
Defined.

Lemma Unset_winner_falls_back_witness :
  ({[ 1%positive := dhcp_arp_client ]} : heap string) !! 1%positive
    = Some dhcp_arp_client ∧
  Runtime.Info (Some 1%positive) {[ 1%positive := dhcp_arp_client ]}
    = Returned ((SourceDHCP, "host.example"),
                {[ 1%positive := dhcp_arp_client ]}) ∧
  ∃ h' cs' host',
    (_ ← Runtime.Unset (Some 1%positive) SourceDHCP;
     Runtime.Info (Some 1%positive)) {[ 1%positive := dhcp_arp_client ]}
    = Returned ((cs', host'), h') ∧
    (cs' < SourceDHCP)%N ∧ (SourceARP ≤ cs')%N.
Proof.
  assert (Hl : ({[ 1%positive := dhcp_arp_client ]} : heap string) !! 1%positive
               = Some dhcp_arp_client) by reflexivity.
  assert (Hinfo :
    Runtime.Info (Some 1%positive) {[ 1%positive := dhcp_arp_client ]}
    = Returned ((SourceDHCP, "host.example"),
                ({[ 1%positive := dhcp_arp_client ]} : heap string)))
    by reflexivity.
  split; [exact Hl|]. split; [exact Hinfo|].
  destruct (Unset_winner_falls_back _ _ _ _ _ Hl Hinfo)
    as (h' & cs' & host' & Heq & Hlower & _ & Hbest).
  exists h', cs', host'. split; [exact Heq|]. split.
  - apply Hlower. discriminate.
  - apply Hbest; [reflexivity|discriminate].
Defined.

Lemma lower_priority_invisible_witness :
  ({[ 1%positive := dhcp_arp_client ]} : heap string) !! 1%positive
    = Some dhcp_arp_client ∧
  Runtime.Info (Some 1%positive) {[ 1%positive := dhcp_arp_client ]}
    = Returned ((SourceDHCP, "host.example"),
                {[ 1%positive := dhcp_arp_client ]}) ∧
  ∃ h',
    (_ ← Runtime.SetInfo (Some 1%positive) SourceRDNS (Some ["ptr.example"]);
     Runtime.Info (Some 1%positive)) {[ 1%positive := dhcp_arp_client ]}
    = Returned ((SourceDHCP, "host.example"), h').
Proof.
  assert (Hl : ({[ 1%positive := dhcp_arp_client ]} : heap string) !! 1%positive
               = Some dhcp_arp_client) by reflexivity.
  assert (Hinfo :
    Runtime.Info (Some 1%positive) {[ 1%positive := dhcp_arp_client ]}
    = Returned ((SourceDHCP, "host.example"),
                ({[ 1%positive := dhcp_arp_client ]} : heap string)))
    by reflexivity.
  split; [exact Hl|]. split; [exact Hinfo|].
  exact (proj2 (lower_priority_invisible _ _ _ _ _ SourceRDNS
                  (Some ["ptr.example"]) Hl Hinfo) eq_refl).
Defined.
